(** * Search overlay of the documentation site

    A shallow embedding of the [StaticSearch] component and of the helpers it
    is built from: result categorisation ([groupBy], [categorisedResults],
    [flattenSearchResults]), the debounced [search] callback, the change,
    focus, close and key handlers, the two React effects that reset the
    selection cursors, and the promise callbacks of the search request.

    The component exists in three variants in the sources.  Module
    [Suggest] embeds the variant with suggestions and presentation modes;
    module [Plain] embeds [src/components/layout/dynamic/Search.tsx], which
    has neither; module [Mock] embeds the static prototype, which filters a
    fixed table and queries no service. *)

From Stdlib Require Import List String Ascii Bool Arith ZArith NArith Lia Permutation.
Import ListNotations.
Local Open Scope string_scope.
Local Open Scope list_scope.

(** ** Data model *)

(** [type SearchResultType = "page" | "section" | "subsection" | "property" | "function"] *)
Inductive SearchResultType : Type :=
| TPage
| TSection
| TSubsection
| TProperty
| TFunction.

(** [type SearchResultLibrary = "library" | "motion"] *)
Inductive SearchResultLibrary : Type :=
| Library
| Motion.

(** The string a [SearchResultLibrary] is at run time; it is the property
    name [groupBy(results, "library")] files a result under. *)
Definition library_name (l : SearchResultLibrary) : string :=
  match l with
  | Library => "library"
  | Motion => "motion"
  end.

(** [interface SearchResult] *)
Record SearchResult : Type := mkResult {
  objectID : option string;
  type : SearchResultType;
  library : SearchResultLibrary;
  page : string;
  title : string;
  secondaryTitle : option string;
  tertiaryTitle : option string;
  description : string;
  href : string
}.

(** ** JavaScript objects used as maps

    A plain object is kept as the list of its own string-keyed properties in
    creation order.  Enumeration ([Object.entries], [Object.values]) lists the array-index keys first, in ascending numeric
    order, and then the other keys in creation order.  The prototype of an
    object is not kept: the code enumerates own properties and reads
    properties by names it has enumerated. *)

Definition JSObject (V : Type) : Type := list (string * V).

Definition is_digit (c : ascii) : bool :=
  let n := nat_of_ascii c in (48 <=? n)%nat && (n <=? 57)%nat.

Fixpoint digits_value (acc : N) (s : string) : option N :=
  match s with
  | EmptyString => Some acc
  | String c s' =>
      if is_digit c
      then digits_value (acc * 10 + N.of_nat (nat_of_ascii c - 48)) s'
      else None
  end.

(** A key is an array index when it is the canonical decimal form of an
    integer between 0 and 2^32 - 2. *)
Definition array_index (k : string) : option N :=
  match k with
  | EmptyString => None
  | String c rest =>
      if (Ascii.eqb c "0" && negb (String.eqb rest ""))%bool then None
      else match digits_value 0 k with
           | Some n => if (n <? 4294967295)%N then Some n else None
           | None => None
           end
  end.

Definition is_array_index (k : string) : bool :=
  match array_index k with Some _ => true | None => false end.

Definition index_of {V : Type} (p : string * V) : N :=
  match array_index (fst p) with Some n => n | None => 0%N end.

Fixpoint insert_by_index {V : Type} (p : string * V) (l : list (string * V))
  : list (string * V) :=
  match l with
  | [] => [p]
  | q :: l' =>
      if (index_of p <? index_of q)%N then p :: q :: l'
      else q :: insert_by_index p l'
  end.

Definition sort_by_index {V : Type} (l : list (string * V)) : list (string * V) :=
  fold_right insert_by_index [] l.

(** [Object.entries(o)] *)
Definition Object_entries {V : Type} (o : JSObject V) : list (string * V) :=
  sort_by_index (filter (fun p => is_array_index (fst p)) o)
  ++ filter (fun p => negb (is_array_index (fst p))) o.

(** [Object.values(o)] *)
Definition Object_values {V : Type} (o : JSObject V) : list V :=
  map snd (Object_entries o).

(** The name whose assignment on a plain object runs the setter of
    [Object.prototype] instead of creating a property. *)
Definition proto_name : string := "__proto__".

(** [o[k] = v], for an object [v]: an existing own property keeps its
    place, a new one is created last.  When [o] has no own property
    [__proto__], assigning to that name replaces the prototype of [o] and
    creates no property. *)
Fixpoint assign {V : Type} (k : string) (v : V) (o : JSObject V) : JSObject V :=
  match o with
  | [] => if String.eqb k proto_name then [] else [(k, v)]
  | (k', v') :: o' =>
      if String.eqb k k' then (k', v) :: o' else (k', v') :: assign k v o'
  end.

(** ** lodash [groupBy]

    [groupBy(collection, key)] of the package [lodash.groupby] walks the
    collection in order.  An element whose key is already an own property
    of the result ([hasOwnProperty.call(result, key)]) is pushed on that
    property's array; otherwise [result[key] = [value]] is run, which
    creates a new property holding the one-element array.  The one key for
    which that assignment creates nothing is [__proto__]: the array becomes
    the prototype of the result, and the element is in none of its
    arrays. *)

Fixpoint push_group {A : Type} (k : string) (a : A) (o : JSObject (list A))
  : JSObject (list A) :=
  match o with
  | [] => if String.eqb k proto_name then [] else [(k, [a])]
  | (k', vs) :: o' =>
      if String.eqb k k' then (k', vs ++ [a]) :: o'
      else (k', vs) :: push_group k a o'
  end.

Definition groupBy {A : Type} (iteratee : A -> string) (collection : list A)
  : JSObject (list A) :=
  fold_left (fun result a => push_group (iteratee a) a result) collection [].

(** ** Result categoriser *)

(** [type CategorisedResults = Record<SearchResultLibrary, Record<string, SearchResult[]>>] *)
Definition CategorisedResults : Type := JSObject (JSObject (list SearchResult)).

(** The object the [categorisedResults] memo builds from an array of
    results: group by library, then group every library's results by page.
    Both variants of the component share this body. *)
Definition pageDividedResults (results : list SearchResult) : CategorisedResults :=
  let libraryDividedResults := groupBy (fun r => library_name (library r)) results in
  fold_left
    (fun pageDividedResults entry =>
       assign (fst entry) (groupBy page (snd entry)) pageDividedResults)
    (Object_entries libraryDividedResults)
    [].

(** Modelled from the spec: [getDeepValues] of [utils/getDeepValues] is not
    among the sources.  The specification describes the flattening as the
    traversal that iterates the groups in their key order, then the
    categories in their key order, then the results in bucket order. *)
Definition getDeepValues (categorisedResults : CategorisedResults)
  : list SearchResult :=
  List.concat (map (fun pages => List.concat (Object_values pages))
                   (Object_values categorisedResults)).

(** [flattenSearchResults] *)
Definition flattenSearchResults (categorisedResults : CategorisedResults)
  : list SearchResult :=
  getDeepValues categorisedResults.

(** ** Selection cursor *)

Module Cursor.

(** Modelled from the spec: the hook [useIndexItem] of [hooks/useIndex] is
    not among the sources.  The specification describes it as a current
    index into a list of length [N], with [next] moving to
    [min (index + 1) (N - 1)] when [N > 0] and leaving the index unchanged
    otherwise, [previous] moving to [max (index - 1) 0], [set i] moving to
    [i] clamped to [0 .. N - 1] and doing nothing when [N = 0], and
    [reset] moving to [0]; replacing the list does not touch the index. *)
Definition next (N index : Z) : Z :=
  if (0 <? N)%Z then Z.min (index + 1) (N - 1) else index.

(** Modelled from the spec: [previous] of the absent hook, which moves to
    [max (index - 1) 0]. *)
Definition previous (index : Z) : Z := Z.max (index - 1) 0.

Definition clamp (i lo hi : Z) : Z := Z.max lo (Z.min i hi).

(** Modelled from the spec: [set] of the absent hook, which moves to [i]
    clamped to [0 .. N - 1] and does nothing over the empty list. *)
Definition set (N i index : Z) : Z :=
  if (N =? 0)%Z then index else clamp i 0 (N - 1).

(** Modelled from the spec: [reset] of the absent hook, which moves to 0. *)
Definition reset : Z := 0%Z.

(** Modelled from the spec: the item the absent hook returns first in its
    tuple, the element the current index points at; it is [items[index]],
    which is [undefined] outside the list. *)
Definition item {A : Type} (items : list A) (index : Z) : option A :=
  if (index <? 0)%Z then None else nth_error items (Z.to_nat index).

(** The length of the list the cursor ranges over. *)
Definition size {A : Type} (items : list A) : Z := Z.of_nat (List.length items).

(** The operations a caller can apply to a cursor. *)
Inductive Op : Type :=
| OpNext
| OpPrevious
| OpSet (i : Z)
| OpReset.

Definition apply (N : Z) (op : Op) (index : Z) : Z :=
  match op with
  | OpNext => next N index
  | OpPrevious => previous index
  | OpSet i => set N i index
  | OpReset => reset
  end.

Definition run (N : Z) (ops : list Op) (index : Z) : Z :=
  fold_left (fun ix op => apply N op ix) ops index.

End Cursor.

(** ** Pieces shared by the variants *)

(** The options object passed to [index.search]. *)
Record Request : Type := mkRequest {
  query : string;
  hitsPerPage : nat;
  optionalFilters : list string
}.

(** The argument of [handleChange]: the input's change event, or the key typed
    while the overlay was closed. *)
Inductive ChangeArg : Type :=
| FormEvent (currentTarget_value : string)
| Typed (key : string).

(** [event.hasOwnProperty("currentTarget") ? event.currentTarget.value : event] *)
Definition changed_value (event : ChangeArg) : string :=
  match event with
  | FormEvent v => v
  | Typed k => k
  end.

(** The fields of a [KeyboardEvent] the handlers read. *)
Record KeyboardEvent : Type := mkKey {
  key : string;
  metaKey : bool;
  ctrlKey : bool;
  altKey : bool
}.

(** What [document.activeElement] is when a key event is delivered. *)
Inductive ActiveElement : Type :=
| Body
| NoElement
| OtherElement.

(** [document.activeElement === document.body || document.activeElement === null] *)
Definition nothing_focused (a : ActiveElement) : bool :=
  match a with
  | Body | NoElement => true
  | OtherElement => false
  end.

(** The class [\w] of a regular expression without flags. *)
Definition is_word_char (c : ascii) : bool :=
  let n := nat_of_ascii c in
  ((48 <=? n)%nat && (n <=? 57)%nat)
  || ((65 <=? n)%nat && (n <=? 90)%nat)
  || ((97 <=? n)%nat && (n <=? 122)%nat)
  || (n =? 95)%nat.

(** [/^\w$/.test(k)] *)
Definition is_word_key (k : string) : bool :=
  match k with
  | String c EmptyString => is_word_char c
  | _ => false
  end.

(** The guard of the type-to-search branch of [handleKey]. *)
Definition opens_by_typing (event : KeyboardEvent) : bool :=
  is_word_key (key event)
  && negb (metaKey event) && negb (ctrlKey event) && negb (altKey event).

(** JavaScript truthiness of a string. *)
Definition truthy (s : string) : bool := negb (String.eqb s "").

(** The wait of [debounce(..., 200)], in milliseconds. *)
Definition debounce_wait : nat := 200.

(** Strings are held as their UTF-8 bytes.  The any-character of a
    regular expression matches everything but a line terminator: line feed,
    carriage return, and U+2028 and U+2029, which are the bytes 226 128 168
    and 226 128 169. *)
Definition is_newline (c : ascii) : bool :=
  let n := nat_of_ascii c in (n =? 10)%nat || (n =? 13)%nat.

Definition starts_wide_terminator (s : string) : bool :=
  match s with
  | String c1 (String c2 (String c3 _)) =>
      (nat_of_ascii c1 =? 226)%nat && (nat_of_ascii c2 =? 128)%nat
      && ((nat_of_ascii c3 =? 168)%nat || (nat_of_ascii c3 =? 169)%nat)
  | _ => false
  end.

Definition drop2 (s : string) : string :=
  match s with
  | String _ (String _ rest) => rest
  | _ => EmptyString
  end.

(** The pieces of a string between its line terminators, in order. *)
Fixpoint lines (s : string) : list string :=
  match s with
  | EmptyString => [EmptyString]
  | String c s' =>
      let rest := lines s' in
      if is_newline c then EmptyString :: rest
      else if starts_wide_terminator (String c s')
           then EmptyString :: drop2 (hd EmptyString rest) :: tl rest
           else String c (hd EmptyString rest) :: tl rest
  end.

(** A string without a line terminator. *)
Definition one_line (s : string) : Prop := lines s = [s].

(** The text after the last space-bar-space of a line: what the capture
    group of the regular expression in [getPage] holds when the match lies
    in that line, the leading any-characters part being greedy. *)
Fixpoint after_last_bar (s : string) : option string :=
  match s with
  | EmptyString => None
  | String _ s' =>
      match after_last_bar s' with
      | Some p => Some p
      | None =>
          if String.prefix " | " s
          then Some (String.substring 3 (String.length s - 3) s)
          else None
      end
  end.

(** [title.includes("|")] *)
Definition includes_bar (s : string) : bool :=
  match String.index 0 "|" s with
  | Some _ => true
  | None => false
  end.

(** The capture of the leftmost match of the regular expression of
    [getPage]: a match cannot cross a line terminator, so it lies in the
    first line that holds a space-bar-space. *)
Fixpoint first_capture (ls : list string) : option string :=
  match ls with
  | [] => None
  | l :: rest =>
      match after_last_bar l with
      | Some p => Some p
      | None => first_capture rest
      end
  end.

(** [getPage], reading [document.title]. *)
Definition getPage (title : string) : option string :=
  if includes_bar title then first_capture (lines title) else None.

(** ** The component with suggestions *)

Module Suggest.

(** A double quote, for the strings that contain one. *)
Definition dq : string := String (ascii_of_nat 34) EmptyString.

Definition librarySuggestedResults : list SearchResult :=
  [ mkResult None TProperty Library "Frame" "animate"
      (Some "AnimationControls | TargetAndTransition | VariantLabels | boolean")
      None
      "Values to animate to, variant label(s), or AnimationControls."
      "/api/frame/#animationprops.animate";
    mkResult None TProperty Library "Frame" "drag"
      (Some ("boolean | " ++ dq ++ "x" ++ dq ++ " | " ++ dq ++ "y" ++ dq)%string)
      None
      ("Enable dragging for this element. Set to false by default. Set true to drag in both directions. Set "
         ++ dq ++ "x" ++ dq ++ " or " ++ dq ++ "y" ++ dq
         ++ " to only drag in a specific direction.")%string
      "/api/frame/#draggableprops.drag";
    mkResult None TPage Library "Scroll" "Scroll" None None
      "Create scrollable areas for desktop or mobile, with mouse and touch-based input support."
      "/api/scroll/";
    mkResult None TPage Library "Property Controls" "Property Controls" None None
      "Add controls to your components to allow customization via the Framer interface."
      "/api/property-controls/" ].

Definition motionSuggestedResults : list SearchResult :=
  [ mkResult None TPage Motion "Motion components" "Motion components" None None
      "Motion components are DOM primitives optimised for 60fps animation and gestures."
      "/api/motion/component/";
    mkResult None TPage Motion "MotionValue" "MotionValue" None None
      "MotionValues track the state and velocity of animating values."
      "/api/motion/motionvalue/";
    mkResult None TSubsection Motion "Animation" "Scale correction"
      (Some "Layout animations") None
      "All layout animations are performed using the transform property, resulting in smooth framerates."
      "/api/motion/animation/#scale-correction";
    mkResult None TFunction Motion "MotionValue" "useSpring"
      (Some "MotionValue") (Some "source, config")
      "Creates a MotionValue that, when set, will use a spring animation to animate to its new state."
      "/api/motion/motionvalue/#usespring" ].

(** The component's React state, the debounce timer of [search], and the
    part of the page around it that the handlers read or write.  Focus,
    blur, [preventDefault] and the [data-scroll] attribute only touch the
    DOM and are not tracked. *)
Record State : Type := mkState {
  value : string;                          (* useState("") *)
  isOpen : bool;                           (* useState(false) *)
  results : option (list SearchResult);    (* useState(null) *)
  resultIndex : Z;                         (* index of useIndexItem(indexedResults) *)
  suggestedIndex : Z;                      (* index of useIndexItem(suggestedResults) *)
  pending : option (string * nat);         (* debounce: last argument, time of last call *)
  now : nat;                               (* clock, in milliseconds *)
  motionSite : bool;                       (* isMotion() *)
  documentTitle : string;                  (* document.title *)
  requests : list Request;                 (* calls of index.search, oldest first *)
  settled : list nat;                      (* positions in [requests] already answered *)
  location : list string;                  (* assignments to window.location.href *)
  console : list string;                   (* console.error *)
  uncaught : list string                   (* exceptions that left a handler *)
}.

Definition initial (motion : bool) (title : string) : State :=
  mkState "" false None 0 0 None 0 motion title [] [] [] [] [].

Definition setValue (v : string) (s : State) : State :=
  mkState v (isOpen s) (results s) (resultIndex s) (suggestedIndex s)
    (pending s) (now s) (motionSite s) (documentTitle s) (requests s)
    (settled s) (location s) (console s) (uncaught s).

Definition setOpen (b : bool) (s : State) : State :=
  mkState (value s) b (results s) (resultIndex s) (suggestedIndex s)
    (pending s) (now s) (motionSite s) (documentTitle s) (requests s)
    (settled s) (location s) (console s) (uncaught s).

Definition setResults (r : option (list SearchResult)) (s : State) : State :=
  mkState (value s) (isOpen s) r (resultIndex s) (suggestedIndex s)
    (pending s) (now s) (motionSite s) (documentTitle s) (requests s)
    (settled s) (location s) (console s) (uncaught s).

Definition with_resultIndex (i : Z) (s : State) : State :=
  mkState (value s) (isOpen s) (results s) i (suggestedIndex s)
    (pending s) (now s) (motionSite s) (documentTitle s) (requests s)
    (settled s) (location s) (console s) (uncaught s).

Definition with_suggestedIndex (i : Z) (s : State) : State :=
  mkState (value s) (isOpen s) (results s) (resultIndex s) i
    (pending s) (now s) (motionSite s) (documentTitle s) (requests s)
    (settled s) (location s) (console s) (uncaught s).

Definition with_pending (p : option (string * nat)) (s : State) : State :=
  mkState (value s) (isOpen s) (results s) (resultIndex s) (suggestedIndex s)
    p (now s) (motionSite s) (documentTitle s) (requests s)
    (settled s) (location s) (console s) (uncaught s).

Definition with_now (t : nat) (s : State) : State :=
  mkState (value s) (isOpen s) (results s) (resultIndex s) (suggestedIndex s)
    (pending s) t (motionSite s) (documentTitle s) (requests s)
    (settled s) (location s) (console s) (uncaught s).

Definition with_requests (q : list Request) (s : State) : State :=
  mkState (value s) (isOpen s) (results s) (resultIndex s) (suggestedIndex s)
    (pending s) (now s) (motionSite s) (documentTitle s) q
    (settled s) (location s) (console s) (uncaught s).

Definition with_settled (l : list nat) (s : State) : State :=
  mkState (value s) (isOpen s) (results s) (resultIndex s) (suggestedIndex s)
    (pending s) (now s) (motionSite s) (documentTitle s) (requests s)
    l (location s) (console s) (uncaught s).

(** [window.location.href = h] *)
Definition navigate (h : string) (s : State) : State :=
  mkState (value s) (isOpen s) (results s) (resultIndex s) (suggestedIndex s)
    (pending s) (now s) (motionSite s) (documentTitle s) (requests s)
    (settled s) (location s ++ [h]) (console s) (uncaught s).

(** [console.error(e)] *)
Definition console_error (e : string) (s : State) : State :=
  mkState (value s) (isOpen s) (results s) (resultIndex s) (suggestedIndex s)
    (pending s) (now s) (motionSite s) (documentTitle s) (requests s)
    (settled s) (location s) (console s ++ [e]) (uncaught s).

(** An exception leaving the handler that is running. *)
Definition throw (e : string) (s : State) : State :=
  mkState (value s) (isOpen s) (results s) (resultIndex s) (suggestedIndex s)
    (pending s) (now s) (motionSite s) (documentTitle s) (requests s)
    (settled s) (location s) (console s) (uncaught s ++ [e]).

(** *** What a render derives from the state *)

(** The [categorisedResults] memo. *)
Definition categorisedResults (s : State) : CategorisedResults :=
  match results s with
  | Some rs => pageDividedResults rs
  | None => []
  end.

(** The [indexedResults] memo. *)
Definition indexedResults (s : State) : list SearchResult :=
  flattenSearchResults (categorisedResults s).

(** The [suggestedResults] memo. *)
Definition suggestedResults (s : State) : list SearchResult :=
  if motionSite s then motionSuggestedResults else librarySuggestedResults.

(** [!results || results?.length === 0] *)
Definition isSuggesting (s : State) : bool :=
  match results s with
  | None => true
  | Some rs => (List.length rs =? 0)%nat
  end.

(** [isSuggesting && Array.isArray(results)] *)
Definition isEmpty (s : State) : bool :=
  isSuggesting s && match results s with Some _ => true | None => false end.

Definition selectedResult (s : State) : option SearchResult :=
  Cursor.item (indexedResults s) (resultIndex s).

Definition selectedSuggestedResult (s : State) : option SearchResult :=
  Cursor.item (suggestedResults s) (suggestedIndex s).

(** The cursor operations the two [useIndexItem] calls hand out; each works
    on the list of the render it is called in. *)
Definition previousResult (s : State) : State :=
  with_resultIndex (Cursor.previous (resultIndex s)) s.

Definition nextResult (s : State) : State :=
  with_resultIndex
    (Cursor.next (Cursor.size (indexedResults s)) (resultIndex s)) s.

Definition setResult (i : Z) (s : State) : State :=
  with_resultIndex
    (Cursor.set (Cursor.size (indexedResults s)) i (resultIndex s)) s.

Definition previousSuggestedResult (s : State) : State :=
  with_suggestedIndex (Cursor.previous (suggestedIndex s)) s.

Definition nextSuggestedResult (s : State) : State :=
  with_suggestedIndex
    (Cursor.next (Cursor.size (suggestedResults s)) (suggestedIndex s)) s.

Definition setSuggestedResult (i : Z) (s : State) : State :=
  with_suggestedIndex
    (Cursor.set (Cursor.size (suggestedResults s)) i (suggestedIndex s)) s.

(** The three presentation modes, read off the two flags the component
    computes. *)
Inductive PresentationMode : Type :=
| Suggesting
| Showing
| Empty.

Definition mode (s : State) : PresentationMode :=
  if isSuggesting s then (if isEmpty s then Empty else Suggesting) else Showing.

(** The list the keyboard acts on: [handleKey] picks the suggestions when
    [isSuggesting] holds and the results otherwise. *)
Definition activeList (s : State) : list SearchResult :=
  if isSuggesting s then suggestedResults s else indexedResults s.

(** *** The debounced [search] *)

(** The filters the debounced function builds: the library of the site,
    and the page when [getPage] finds one. *)
Definition search_filters (s : State) : list string :=
  let page := getPage (documentTitle s) in
  let filters := [("library:" ++ (if motionSite s then "motion" else "library"))%string] in
  match page with
  | Some p => if truthy p then filters ++ [("page:" ++ p)%string] else filters
  | None => filters
  end.

(** The function handed to [debounce]: it builds the filters and calls
    [index.search]. *)
Definition search_body (v : string) (s : State) : State :=
  with_requests (requests s ++ [mkRequest v 10 (search_filters s)]) s.

(** [search(v)]: remember the argument and restart the wait. *)
Definition search (v : string) (s : State) : State :=
  with_pending (Some (v, now s)) s.

(** [search.cancel()] *)
Definition search_cancel (s : State) : State := with_pending None s.

(** Time passing: the clock advances, and a timer whose wait has run out
    since the last call invokes the function with the last argument. *)
Definition elapse (ms : nat) (s : State) : State :=
  let s' := with_now (now s + ms) s in
  match pending s' with
  | Some (v, t) =>
      if (t + debounce_wait <=? now s')%nat
      then search_body v (with_pending None s')
      else s'
  | None => s'
  end.

(** *** Handlers *)

Definition handleChange (event : ChangeArg) (s : State) : State :=
  let v := changed_value event in
  let s := setValue v s in
  if truthy v then search v s
  else search_cancel (setResults None s).

Definition handleFocus (s : State) : State := setOpen true s.

Definition handleClose (s : State) : State := setOpen false s.

(** [window.location.href = selected.href]; reading [href] of [undefined]
    throws. *)
Definition go_to (selected : option SearchResult) (s : State) : State :=
  match selected with
  | Some r => navigate (href r) s
  | None => throw "TypeError" s
  end.

Definition handleKey (event : KeyboardEvent) (active : ActiveElement)
           (s : State) : State :=
  if isOpen s then
    if String.eqb (key event) "ArrowUp" then
      if isSuggesting s then previousSuggestedResult s else previousResult s
    else if String.eqb (key event) "ArrowDown" then
      if isSuggesting s then nextSuggestedResult s else nextResult s
    else if String.eqb (key event) "Escape" then
      setOpen false s
    else if String.eqb (key event) "Enter" then
      if isSuggesting s
      then go_to (selectedSuggestedResult s) (setOpen false s)
      else go_to (selectedResult s) (setOpen false s)
    else s
  else
    if nothing_focused active then
      if opens_by_typing event
      then setOpen true (handleChange (Typed (key event)) s)
      else s
    else s.

(** The [then] callback of the search promise. *)
Definition on_hits (hits : list SearchResult) (s : State) : State :=
  setResults (Some hits) s.

(** The [catch] callback of the search promise. *)
Definition on_error (error : string) (s : State) : State :=
  console_error error (setResults (Some []) s).

(** *** Effects *)

(** The effects that run after a render, in the order the component
    declares them: the one on [isOpen], then the one on [isSuggesting].
    Each runs only when its dependency differs from the previous render. *)
Definition effects (prev next : State) : State :=
  let s1 :=
    if Bool.eqb (isOpen prev) (isOpen next) then next
    else if isOpen next then next
         else setSuggestedResult 0 (setResult 0 next) in
  if Bool.eqb (isSuggesting prev) (isSuggesting next) then s1
  else if isSuggesting next then setResult 0 s1
       else setSuggestedResult 0 s1.

(** *** Events *)

Inductive Event : Type :=
| Change (event : ChangeArg)
| Focus
| ClickOutside
| KeyDown (event : KeyboardEvent) (active : ActiveElement)
| Elapse (ms : nat)
| Resolve (id : nat) (hits : list SearchResult)
| Reject (id : nat) (error : string).

(** A request can be answered once, after it was sent. *)
Definition in_flight (id : nat) (s : State) : bool :=
  (id <? List.length (requests s))%nat
  && negb (existsb (Nat.eqb id) (settled s)).

Definition settle (id : nat) (s : State) : State :=
  with_settled (id :: settled s) s.

(** The handler an event runs. *)
Definition handle (e : Event) (s : State) : State :=
  match e with
  | Change event => handleChange event s
  | Focus => handleFocus s
  | ClickOutside => handleClose s
  | KeyDown event active => handleKey event active s
  | Elapse ms => elapse ms s
  | Resolve id hits => if in_flight id s then on_hits hits (settle id s) else s
  | Reject id error => if in_flight id s then on_error error (settle id s) else s
  end.

(** One event: the handler, the render it causes, and the effects of that
    render. *)
Definition step (s : State) (e : Event) : State :=
  effects s (handle e s).

Definition run (s : State) (es : list Event) : State := fold_left step es s.

(** A plain key press, without modifiers. *)
Definition press (k : string) : Event :=
  KeyDown (mkKey k false false false) Body.

(** A burst of changes of the input: each change is followed by the time
    that passes before the next event. *)
Fixpoint burst (calls : list (string * nat)) : list Event :=
  match calls with
  | [] => []
  | (v, gap) :: rest => Change (FormEvent v) :: Elapse gap :: burst rest
  end.

End Suggest.

(** ** The component of [src/components/layout/dynamic/Search.tsx] *)

Module Plain.

(** The React state, the debounce timer and the surroundings, as in
    [Suggest.State].  There is one cursor and [results] is always an
    array.  The refs [openRef] and [selectedResultRef] are written by an
    effect after every render that changes [open] or [selectedResult], so a
    handler reads the current values through them. *)
Record State : Type := mkState {
  value : string;                     (* useState("") *)
  open : bool;                        (* useState(false) *)
  results : list SearchResult;        (* useState([]) *)
  index : Z;                          (* index of useIndexItem(indexedResults) *)
  pending : option (string * nat);    (* debounce: last argument, time of last call *)
  now : nat;
  motionSite : bool;                  (* isMotion() *)
  requests : list Request;
  settled : list nat;
  location : list string;
  console : list string;
  uncaught : list string
}.

Definition initial (motion : bool) : State :=
  mkState "" false [] 0 None 0 motion [] [] [] [] [].

Definition setValue (v : string) (s : State) : State :=
  mkState v (open s) (results s) (index s) (pending s) (now s) (motionSite s)
    (requests s) (settled s) (location s) (console s) (uncaught s).

Definition setOpen (b : bool) (s : State) : State :=
  mkState (value s) b (results s) (index s) (pending s) (now s) (motionSite s)
    (requests s) (settled s) (location s) (console s) (uncaught s).

Definition setResults (r : list SearchResult) (s : State) : State :=
  mkState (value s) (open s) r (index s) (pending s) (now s) (motionSite s)
    (requests s) (settled s) (location s) (console s) (uncaught s).

Definition with_index (i : Z) (s : State) : State :=
  mkState (value s) (open s) (results s) i (pending s) (now s) (motionSite s)
    (requests s) (settled s) (location s) (console s) (uncaught s).

Definition with_pending (p : option (string * nat)) (s : State) : State :=
  mkState (value s) (open s) (results s) (index s) p (now s) (motionSite s)
    (requests s) (settled s) (location s) (console s) (uncaught s).

Definition with_now (t : nat) (s : State) : State :=
  mkState (value s) (open s) (results s) (index s) (pending s) t (motionSite s)
    (requests s) (settled s) (location s) (console s) (uncaught s).

Definition with_requests (q : list Request) (s : State) : State :=
  mkState (value s) (open s) (results s) (index s) (pending s) (now s) (motionSite s)
    q (settled s) (location s) (console s) (uncaught s).

Definition with_settled (l : list nat) (s : State) : State :=
  mkState (value s) (open s) (results s) (index s) (pending s) (now s) (motionSite s)
    (requests s) l (location s) (console s) (uncaught s).

Definition navigate (h : string) (s : State) : State :=
  mkState (value s) (open s) (results s) (index s) (pending s) (now s) (motionSite s)
    (requests s) (settled s) (location s ++ [h]) (console s) (uncaught s).

Definition console_error (e : string) (s : State) : State :=
  mkState (value s) (open s) (results s) (index s) (pending s) (now s) (motionSite s)
    (requests s) (settled s) (location s) (console s ++ [e]) (uncaught s).

Definition throw (e : string) (s : State) : State :=
  mkState (value s) (open s) (results s) (index s) (pending s) (now s) (motionSite s)
    (requests s) (settled s) (location s) (console s) (uncaught s ++ [e]).

(** The [categorisedResults] memo. *)
Definition categorisedResults (s : State) : CategorisedResults :=
  pageDividedResults (results s).

(** The [indexedResults] memo. *)
Definition indexedResults (s : State) : list SearchResult :=
  flattenSearchResults (categorisedResults s).

Definition selectedResult (s : State) : option SearchResult :=
  Cursor.item (indexedResults s) (index s).

Definition previousResult (s : State) : State :=
  with_index (Cursor.previous (index s)) s.

Definition nextResult (s : State) : State :=
  with_index (Cursor.next (Cursor.size (indexedResults s)) (index s)) s.

(** The function handed to [debounce]. *)
Definition search_body (v : string) (s : State) : State :=
  with_requests
    (requests s
     ++ [mkRequest v 10
           [("library:" ++ (if motionSite s then "motion" else "library"))%string]])
    s.

Definition search (v : string) (s : State) : State :=
  with_pending (Some (v, now s)) s.

Definition elapse (ms : nat) (s : State) : State :=
  let s' := with_now (now s + ms) s in
  match pending s' with
  | Some (v, t) =>
      if (t + debounce_wait <=? now s')%nat
      then search_body v (with_pending None s')
      else s'
  | None => s'
  end.

Definition handleChange (event : ChangeArg) (s : State) : State :=
  let v := changed_value event in
  search v (setValue v s).

Definition handleFocus (s : State) : State := setOpen true s.

Definition handleClickOutside (s : State) : State := setOpen false s.

Definition handleKey (event : KeyboardEvent) (active : ActiveElement)
           (s : State) : State :=
  if open s then
    if String.eqb (key event) "ArrowUp" then previousResult s
    else if String.eqb (key event) "ArrowDown" then nextResult s
    else if String.eqb (key event) "Escape" then setOpen false s
    else if String.eqb (key event) "Enter" then
      match selectedResult s with
      | Some r => navigate (href r) s
      | None => throw "TypeError" s
      end
    else s
  else
    if nothing_focused active then
      if opens_by_typing event
      then setOpen true (handleChange (Typed (key event)) s)
      else s
    else s.

(** The [then] callback of the search promise. *)
Definition on_hits (hits : list SearchResult) (s : State) : State :=
  setResults hits s.

(** The [catch] callback of the search promise. *)
Definition on_error (error : string) (s : State) : State :=
  console_error error s.

Inductive Event : Type :=
| Change (event : ChangeArg)
| Focus
| ClickOutside
| KeyDown (event : KeyboardEvent) (active : ActiveElement)
| Elapse (ms : nat)
| Resolve (id : nat) (hits : list SearchResult)
| Reject (id : nat) (error : string).

Definition in_flight (id : nat) (s : State) : bool :=
  (id <? List.length (requests s))%nat
  && negb (existsb (Nat.eqb id) (settled s)).

Definition settle (id : nat) (s : State) : State :=
  with_settled (id :: settled s) s.

(** One event.  No effect of this component writes its state. *)
Definition step (s : State) (e : Event) : State :=
  match e with
  | Change event => handleChange event s
  | Focus => handleFocus s
  | ClickOutside => handleClickOutside s
  | KeyDown event active => handleKey event active s
  | Elapse ms => elapse ms s
  | Resolve id hits => if in_flight id s then on_hits hits (settle id s) else s
  | Reject id error => if in_flight id s then on_error error (settle id s) else s
  end.

Definition run (s : State) (es : list Event) : State := fold_left step es s.

End Plain.

(** ** The static prototype

    The earliest variant of the component filters a fixed table instead of
    querying a service, and binds the slash key. *)

Module Mock.

(** [interface SearchResult] of this variant: no library, no object id. *)
Record SearchResult : Type := mkResult {
  type : SearchResultType;
  page : string;
  title : string;
  secondaryTitle : option string;
  description : string;
  href : string
}.

Definition genericResults : list SearchResult :=
  [ mkResult TPage "Animation" "Animation" None
      "A set of properties and helpers for high-performance, declarative animations."
      "/api/animation/";
    mkResult TSection "Scroll" "Content" None
      "dragEnabled, wheelEnabled, direction, contentOffsetX, contentOffsetY, scrollAnimate."
      "/scroll/#content";
    mkResult TSubsection "Animation" "Transitions" (Some "Overview")
      "The transition for the values in animate can be set via the transition property."
      "/scroll/#content";
    mkResult TProperty "Frame" "width"
      (Some "number | string | MotionValue<number | string>")
      "Set the CSS width property. Set to 200 by default. Accepts all CSS value types (including pixels, percentages, keywords and more)."
      "/api/frame/#framelayoutproperties.width" ].

Record State : Type := mkState {
  value : string;            (* useState("") *)
  open : bool;               (* useState(false) *)
  index : Z;                 (* index of useIndexItem(results) *)
  location : list string;    (* assignments to window.location.href *)
  uncaught : list string     (* exceptions that left a handler *)
}.

Definition initial : State := mkState "" false 0 [] [].

(** [s.includes(sub)] *)
Definition includes (s sub : string) : bool :=
  match String.index 0 sub s with
  | Some _ => true
  | None => false
  end.

(** [genericResults.filter(result => result.title.includes(value))] *)
Definition results (s : State) : list SearchResult :=
  filter (fun result => includes (title result) (value s)) genericResults.

Definition selectedResult (s : State) : option SearchResult :=
  Cursor.item (results s) (index s).

Definition setValue (v : string) (s : State) : State :=
  mkState v (open s) (index s) (location s) (uncaught s).

Definition setOpen (b : bool) (s : State) : State :=
  mkState (value s) b (index s) (location s) (uncaught s).

Definition with_index (i : Z) (s : State) : State :=
  mkState (value s) (open s) i (location s) (uncaught s).

Definition handleChange (currentTarget_value : string) (s : State) : State :=
  setValue currentTarget_value s.

Definition handleFocus (s : State) : State := setOpen true s.

Definition handleClickOutside (s : State) : State := setOpen false s.

Definition handleKey (event : KeyboardEvent) (s : State) : State :=
  if String.eqb (key event) "ArrowUp" then
    with_index (Cursor.previous (index s)) s
  else if String.eqb (key event) "ArrowDown" then
    with_index (Cursor.next (Cursor.size (results s)) (index s)) s
  else if String.eqb (key event) "/" then
    setOpen true s
  else if String.eqb (key event) "Escape" then
    setOpen false s
  else if String.eqb (key event) "Enter" then
    match selectedResult s with
    | Some r =>
        mkState (value s) false (index s) (location s ++ [href r]) (uncaught s)
    | None =>
        mkState (value s) false (index s) (location s) (uncaught s ++ ["TypeError"])
    end
  else s.

End Mock.

(** ** Properties of the interaction *)

(** The pair a result is filed under. *)
Definition bucket (r : SearchResult) : SearchResultLibrary * string :=
  (library r, page r).

(** The elements of [l] that share a key sit next to each other: between
    two elements with the same key there are only elements with that key. *)
Definition contiguous_by {A K : Type} (key : A -> K) (l : list A) : Prop :=
  forall l1 a l2 b l3,
    l = l1 ++ a :: l2 ++ b :: l3 ->
    key a = key b ->
    Forall (fun x => key x = key a) l2.

(** The names a result is filed under in the categorised object. *)
Definition bucket_names (r : SearchResult) : string * string :=
  (library_name (library r), page r).

(** The arrays of a categorised object, each with the two names it is
    reached by, in the order the flattening visits them. *)
Definition buckets {B : Type} (c : JSObject (JSObject (list B)))
  : list ((string * string) * list B) :=
  flat_map
    (fun entry =>
       map (fun b => ((fst entry, fst b), snd b)) (Object_entries (snd entry)))
    (Object_entries c).

(** Every array of a grouping holds elements of its own key only. *)
Definition uniform {A K : Type} (f : A -> K) (o : list (K * list A)) : Prop :=
  Forall (fun p => Forall (fun a => f a = fst p) (snd p)) o.

(** The keys that close the overlay when it is open. *)
Definition closes (e : Suggest.Event) : Prop :=
  (exists event active, e = Suggest.KeyDown event active /\ key event = "Escape")
  \/ e = Suggest.ClickOutside.

(** "A response of an older request that arrives after the response of a
    newer one is dropped, and the results on display stay those of the newer
    request." *)
Definition stale_response_dropped : Prop :=
  forall (s : Suggest.State) (a b : nat) (hitsA hitsB : list SearchResult),
    (a < b)%nat ->
    Suggest.in_flight a s = true ->
    Suggest.in_flight b s = true ->
    Suggest.results (Suggest.run s [Suggest.Resolve b hitsB; Suggest.Resolve a hitsA])
    = Some hitsB.

(** "In Empty mode, pressing Enter navigates nowhere." *)
Definition enter_is_noop_when_empty : Prop :=
  forall (s : Suggest.State),
    Suggest.isOpen s = true ->
    Suggest.mode s = Suggest.Empty ->
    Suggest.location (Suggest.step s (Suggest.press "Enter")) = Suggest.location s.

(** "Closing the overlay resets both cursors to 0 and clears the query
    text." *)
Definition close_resets_and_clears : Prop :=
  forall (s : Suggest.State) (e : Suggest.Event),
    Suggest.isOpen s = true ->
    closes e ->
    let s' := Suggest.step s e in
    Suggest.isOpen s' = false
    /\ Suggest.resultIndex s' = 0%Z
    /\ Suggest.suggestedIndex s' = 0%Z
    /\ Suggest.value s' = "".

(** "From the closed state, a focus event, a slash key press, or a word
    character typed while nothing is focused opens the overlay in Suggesting
    mode." *)
Definition closed_opens_suggesting : Prop :=
  forall (s : Suggest.State) (e : Suggest.Event),
    Suggest.isOpen s = false ->
    (e = Suggest.Focus
     \/ e = Suggest.press "/"
     \/ exists k, is_word_key k = true /\ e = Suggest.press k) ->
    let s' := Suggest.step s e in
    Suggest.isOpen s' = true /\ Suggest.mode s' = Suggest.Suggesting.

(** "Replacing the active result list resets its cursor, so the cursor never
    points past the end of the new list." *)
Definition cursor_within_results (s : Suggest.State) : Prop :=
  Suggest.indexedResults s <> [] ->
  (0 <= Suggest.resultIndex s < Cursor.size (Suggest.indexedResults s))%Z.

(** The states the component can be in: those a sequence of events leads
    to from the state it is mounted in. *)
Definition reachable (s : Suggest.State) : Prop :=
  exists motion title events, s = Suggest.run (Suggest.initial motion title) events.

(** The suggestions cursor is inside the suggestion list, which has four
    entries on either site. *)
Definition suggested_in_range (s : Suggest.State) : Prop :=
  (0 <= Suggest.suggestedIndex s <= 3)%Z.

(** ** Sample sessions *)

Module Sample.

Import Suggest.

(** Three results in two categories, and one result. *)
Definition three_hits : list SearchResult := firstn 3 librarySuggestedResults.

Definition one_hit : list SearchResult := firstn 1 motionSuggestedResults.

(** Six results of both libraries, with the pages interleaved. *)
Definition mixed_hits : list SearchResult :=
  match librarySuggestedResults, motionSuggestedResults with
  | [animate; drag; scroll; _], [components; motionValue; _; useSpring] =>
      [animate; components; scroll; drag; useSpring; motionValue]
  | _, _ => []
  end.

(** Two queries are typed and sent one after the other while the overlay is
    open; neither has been answered yet. *)
Definition two_in_flight : State :=
  run (initial false "")
      [Focus; Change (FormEvent "d"); Elapse 200;
       Change (FormEvent "dr"); Elapse 200].

(** A query is answered with three results and the cursor is moved to the
    last of them. *)
Definition at_last_result : State :=
  run (initial false "")
      [Focus; Change (FormEvent "d"); Elapse 200; Resolve 0 three_hits;
       press "ArrowDown"; press "ArrowDown"].

(** Then a longer query is answered with one result. *)
Definition narrowed : State :=
  run at_last_result
      [Change (FormEvent "dr"); Elapse 200; Resolve 1 one_hit].

(** A query is answered with no result. *)
Definition no_match : State :=
  run (initial false "")
      [Focus; Change (FormEvent "zzz"); Elapse 200; Resolve 0 []].

(** A query is typed into the open overlay. *)
Definition typing : State :=
  run (initial false "") [Focus; Change (FormEvent "a")].

(** A request is in flight. *)
Definition waiting : State :=
  run (initial false "") [Focus; Change (FormEvent "a"); Elapse 200].

Definition plain_two_in_flight : Plain.State :=
  Plain.run (Plain.initial false)
    [Plain.Focus; Plain.Change (FormEvent "d"); Plain.Elapse 200;
     Plain.Change (FormEvent "dr"); Plain.Elapse 200].

(** In [Search.tsx], a query is answered with three results and a longer
    query is in flight. *)
Definition plain_showing : Plain.State :=
  Plain.run (Plain.initial false)
    [Plain.Focus; Plain.Change (FormEvent "d"); Plain.Elapse 200;
     Plain.Resolve 0 three_hits; Plain.Change (FormEvent "dr"); Plain.Elapse 200].

(** A hit whose page is named like the prototype accessor. *)
Definition proto_hit : SearchResult :=
  mkResult None TSection Library "__proto__" "Prototype" None None
           "An index record of a page called __proto__."
           "/api/proto/".

End Sample.

(** ** Looking a property up *)

(** What a property read gives: the value of an own property, or whatever
    the prototype chain answers for a name the object does not own
    ([undefined], or an inherited member such as [toString]).  The chain is
    not part of the model, so the second case says no more than that. *)
Inductive Member (V : Type) : Type :=
| Own (v : V)
| FromPrototype.

Arguments Own {V} v.
Arguments FromPrototype {V}.

(** [o[k]] *)
Fixpoint get {V : Type} (k : string) (o : JSObject V) : Member V :=
  match o with
  | [] => FromPrototype
  | (k', v) :: o' => if String.eqb k k' then Own v else get k o'
  end.

(** [Object.keys(o)] *)
Definition Object_keys {V : Type} (o : JSObject V) : list string :=
  map fst (Object_entries o).

(** The array a categorised object owns for a library and a page: the
    own property [pg] of the own property [lib]. *)
Definition lookup_bucket (c : CategorisedResults) (lib pg : string)
  : Member (list SearchResult) :=
  match get lib c with
  | Own pages => get pg pages
  | FromPrototype => FromPrototype
  end.

(** Whether the grouping by page keeps a result: one filed under
    [__proto__] is in no array. *)
Definition kept (r : SearchResult) : bool :=
  negb (String.eqb (page r) proto_name).

(** Whether a result carries the given library and page names. *)
Definition in_bucket (lib pg : string) (r : SearchResult) : bool :=
  String.eqb (library_name (library r)) lib && String.eqb (page r) pg.

(** ** The rendered list *)

Definition SearchResult_eq_dec (a b : SearchResult) : {a = b} + {a <> b}.
Proof.
  decide equality;
    try apply string_dec;
    try (decide equality; apply string_dec);
    decide equality.
Defined.

(** [a === b] on two results.  The results of a response and the entries
    of a suggestion table are distinct objects; they are compared here by
    their fields, which tells them apart as long as no two of them agree on
    every field. *)
Definition same_object (a b : SearchResult) : bool :=
  if SearchResult_eq_dec a b then true else false.

Fixpoint findIndex_from (i : Z) (result : SearchResult)
         (items : list SearchResult) : Z :=
  match items with
  | [] => (-1)%Z
  | item :: rest =>
      if same_object item result then i
      else findIndex_from (i + 1) result rest
  end.

(** [items.findIndex(item => item === result)] *)
Definition findIndex (result : SearchResult) (items : list SearchResult) : Z :=
  findIndex_from 0 result items.

(** What the [SearchResult] component puts on the page for one result: the
    [data-index] attribute, the result, and whether it carries the [active]
    class. *)
Record Row : Type := mkRow {
  data_index : Z;
  row_result : SearchResult;
  isActive : bool
}.

(** The [SearchResult] component; [selectedResult === result] is false when
    nothing is selected. *)
Definition render_result (index : Z) (result : SearchResult)
           (selectedResult : option SearchResult) : Row :=
  mkRow index result
        (match selectedResult with
         | Some selected => same_object selected result
         | None => false
         end).

(** [items.map((result, index) => ...)], the index counted from [i]. *)
Fixpoint map_indexed_from {B : Type} (i : Z) (f : Z -> SearchResult -> B)
         (items : list SearchResult) : list B :=
  match items with
  | [] => []
  | item :: rest => f i item :: map_indexed_from (i + 1) f rest
  end.

(** The rows of the pieces of a list, in order; [None] when one of the
    pieces is left open. *)
Fixpoint join_rows (parts : list (option (list Row))) : option (list Row) :=
  match parts with
  | [] => Some []
  | Some rows :: rest => option_map (app rows) (join_rows rest)
  | None :: _ => None
  end.

(** One category of the [SearchResults] component: the results under
    [sectionResults[category]], each with its position in
    [indexedResults].  The component takes its categories from
    [Object.keys(sectionResults)], so the read gives an own property; what
    would be rendered for another name depends on the prototype chain and is
    left open: [None]. *)
Definition render_category (indexedResults : list SearchResult)
           (selectedResult : option SearchResult)
           (sectionResults : JSObject (list SearchResult))
           (category : string) : option (list Row) :=
  match get category sectionResults with
  | Own categoryResults =>
      Some (map (fun result =>
                   render_result (findIndex result indexedResults) result
                                 selectedResult)
                categoryResults)
  | FromPrototype => None
  end.

(** The sections of the [SearchResults] component: one per entry of
    [categorisedResults], with one category per key of the entry. *)
Definition render_sections (categorisedResults : CategorisedResults)
           (indexedResults : list SearchResult)
           (selectedResult : option SearchResult) : option (list Row) :=
  join_rows
    (map (fun section =>
            join_rows
              (map (render_category indexedResults selectedResult (snd section))
                   (Object_keys (snd section))))
         (Object_entries categorisedResults)).

(** The [SearchEmpty] component: the suggestions, each with its position
    in the list. *)
Definition SearchEmpty (suggestedResults : list SearchResult)
           (selectedResult : option SearchResult) : list Row :=
  map_indexed_from 0 (fun index result => render_result index result selectedResult)
                   suggestedResults.

(** The rows of a list whose entry at [cursor], and no other, is active,
    each numbered by its position counted from [i]. *)
Definition rows_from (i : Z) (items : list SearchResult) (cursor : Z) : list Row :=
  map_indexed_from i (fun index result => mkRow index result (index =? cursor)%Z)
                   items.

Module View.

(** The [SearchResults] component of the variant with suggestions. *)
Definition SearchResults (s : Suggest.State) : option (list Row) :=
  if Suggest.isSuggesting s
  then Some (SearchEmpty (Suggest.suggestedResults s)
                         (Suggest.selectedSuggestedResult s))
  else render_sections (Suggest.categorisedResults s)
                       (Suggest.indexedResults s)
                       (Suggest.selectedResult s).

(** The [SearchResults] component of [Search.tsx]. *)
Definition PlainSearchResults (p : Plain.State) : option (list Row) :=
  render_sections (Plain.categorisedResults p)
                  (Plain.indexedResults p)
                  (Plain.selectedResult p).

End View.

(** ** Invariants of the component with suggestions *)

(** The pending timer was started for the text now in the input, which is
    not empty, and its wait has not run out. *)
Definition timer_matches_input (s : Suggest.State) : Prop :=
  match Suggest.pending s with
  | Some (v, t) =>
      v = Suggest.value s /\ v <> ""
      /\ (t <= Suggest.now s)%nat /\ (Suggest.now s < t + debounce_wait)%nat
  | None => True
  end.

(** The name the site passes in its library filter. *)
Definition site_filter (s : Suggest.State) : string :=
  "library:" ++ (if Suggest.motionSite s then "motion" else "library").

(** A request asks for a non-empty query, ten hits, the library of the site
    first and at most one more filter. *)
Definition well_formed_request (s : Suggest.State) (r : Request) : Prop :=
  query r <> ""
  /\ hitsPerPage r = 10
  /\ optionalFilters r = Suggest.search_filters s
  /\ exists rest,
      optionalFilters r = site_filter s :: rest /\ (List.length rest <= 1)%nat.

(** The keys the open overlay acts on. *)
Definition is_overlay_key (k : string) : bool :=
  String.eqb k "ArrowUp" || String.eqb k "ArrowDown"
  || String.eqb k "Escape" || String.eqb k "Enter".

(** The events of [Search.tsx] that close the overlay. *)
Definition plain_closes (e : Plain.Event) : Prop :=
  (exists event active, e = Plain.KeyDown event active /\ key event = "Escape")
  \/ e = Plain.ClickOutside.

(** A failed search is stored as zero results, in both components. *)
Definition failure_is_zero_results : Prop :=
  (forall (s : Suggest.State) (id : nat) (error : string),
      Suggest.in_flight id s = true ->
      Suggest.results (Suggest.step s (Suggest.Reject id error)) = Some [])
  /\ (forall (p : Plain.State) (id : nat) (error : string),
         Plain.in_flight id p = true ->
         Plain.results (Plain.step p (Plain.Reject id error)) = []).

(** * Proofs *)

(** ** Enumeration order of an object *)

Section ObjectOrder.

Context {V : Type}.

Lemma insert_by_index_perm (p : string * V) (l : list (string * V)) :
  Permutation (insert_by_index p l) (p :: l).
Proof.
  induction l as [| q l IH]; simpl.
  - reflexivity.
  - destruct (index_of p <? index_of q)%N.
    + reflexivity.
    + rewrite IH. apply perm_swap.
Qed.

Lemma sort_by_index_perm (l : list (string * V)) :
  Permutation (sort_by_index l) l.
Proof.
  induction l as [| p l IH]; simpl.
  - constructor.
  - rewrite insert_by_index_perm. now constructor.
Qed.

Lemma filter_split_perm (f : string * V -> bool) (l : list (string * V)) :
  Permutation (filter f l ++ filter (fun p => negb (f p)) l) l.
Proof.
  induction l as [| p l IH]; simpl.
  - constructor.
  - destruct (f p); simpl.
    + now constructor.
    + symmetry. apply Permutation_cons_app. now symmetry.
Qed.

Lemma Object_entries_perm (o : JSObject V) :
  Permutation (Object_entries o) o.
Proof.
  unfold Object_entries.
  rewrite sort_by_index_perm.
  apply filter_split_perm.
Qed.

Lemma Object_entries_keys_NoDup (o : JSObject V) :
  NoDup (map fst o) -> NoDup (map fst (Object_entries o)).
Proof.
  intros H.
  eapply Permutation_NoDup; [| exact H].
  apply Permutation_map. symmetry. apply Object_entries_perm.
Qed.

Lemma Object_entries_Forall (P : string * V -> Prop) (o : JSObject V) :
  Forall P o -> Forall P (Object_entries o).
Proof.
  intros H.
  eapply Permutation_Forall; [| exact H].
  symmetry. apply Object_entries_perm.
Qed.

Lemma assign_fresh (k : string) (v : V) (o : JSObject V) :
  k <> proto_name ->
  ~ In k (map fst o) -> assign k v o = o ++ [(k, v)].
Proof.
  intros Hproto.
  induction o as [| [k' v'] o IH]; simpl; intros Hk.
  - apply String.eqb_neq in Hproto. now rewrite Hproto.
  - destruct (String.eqb_spec k k') as [-> | Hne].
    + exfalso. apply Hk. now left.
    + f_equal. apply IH. intros Hin. apply Hk. now right.
Qed.

End ObjectOrder.

Lemma fold_assign_fresh {V W : Type} (g : V -> W) (es : list (string * V)) :
  Forall (fun e => fst e <> proto_name) es ->
  forall acc : JSObject W,
    NoDup (map fst acc ++ map fst es) ->
    fold_left (fun o e => assign (fst e) (g (snd e)) o) es acc
    = acc ++ map (fun e => (fst e, g (snd e))) es.
Proof.
  induction 1 as [| e es He _ IH]; simpl; intros acc Hnd.
  - now rewrite app_nil_r.
  - rewrite assign_fresh.
    + rewrite IH.
      * now rewrite <- app_assoc.
      * rewrite map_app. simpl. rewrite <- app_assoc. exact Hnd.
    + exact He.
    + intros Hin. apply NoDup_remove_2 in Hnd. apply Hnd.
      apply in_or_app. now left.
Qed.

(** ** [groupBy] *)

Section GroupBy.

Context {A : Type} (f : A -> string).

Lemma groupBy_snoc (l : list A) (a : A) :
  groupBy f (l ++ [a]) = push_group (f a) a (groupBy f l).
Proof.
  unfold groupBy. now rewrite fold_left_app.
Qed.

Lemma push_group_keys (k : string) (a : A) (o : JSObject (list A)) :
  forall x, In x (map fst (push_group k a o)) -> x = k \/ In x (map fst o).
Proof.
  induction o as [| [k' vs] o IH]; simpl; intros x.
  - destruct (String.eqb k proto_name); simpl; intuition congruence.
  - destruct (String.eqb_spec k k') as [-> | Hne]; simpl.
    + intuition congruence.
    + intros [Heq | Hin]; [now right; left |].
      destruct (IH x Hin); [now left | now right; right].
Qed.

(** No property is ever created under the name of the prototype
    accessor. *)
Lemma push_group_no_proto (k : string) (a : A) (o : JSObject (list A)) :
  ~ In proto_name (map fst o) ->
  ~ In proto_name (map fst (push_group k a o)).
Proof.
  induction o as [| [k' vs] o IH]; simpl; intros Hno.
  - destruct (String.eqb_spec k proto_name) as [-> | Hne]; simpl.
    + intros [].
    + intros [Heq | []]. congruence.
  - destruct (String.eqb k k'); simpl.
    + exact Hno.
    + intros [Heq | Hin]; [apply Hno; now left |].
      apply IH; [| exact Hin]. intros H. apply Hno. now right.
Qed.

Lemma push_group_NoDup (k : string) (a : A) (o : JSObject (list A)) :
  NoDup (map fst o) -> NoDup (map fst (push_group k a o)).
Proof.
  induction o as [| [k' vs] o IH]; simpl; intros Hnd.
  - destruct (String.eqb k proto_name); simpl;
      [constructor | constructor; [intros [] | constructor]].
  - destruct (String.eqb_spec k k') as [-> | Hne]; simpl.
    + exact Hnd.
    + inversion Hnd as [| ? ? Hnotin Hnd']; subst.
      constructor.
      * intros Hin. apply push_group_keys in Hin.
        destruct Hin as [Heq | Hin]; [congruence | contradiction].
      * now apply IH.
Qed.

Lemma push_group_uniform (a : A) (o : JSObject (list A)) :
  uniform f o -> uniform f (push_group (f a) a o).
Proof.
  unfold uniform.
  induction o as [| [k' vs] o IH]; simpl; intros Hu.
  - destruct (String.eqb (f a) proto_name); repeat constructor.
  - inversion Hu as [| ? ? Hvs Ho]; subst.
    destruct (String.eqb_spec (f a) k') as [Heq | Hne].
    + constructor; [| exact Ho].
      simpl in *. apply Forall_app. split; [exact Hvs |].
      constructor; [exact Heq | constructor].
    + constructor; [exact Hvs | now apply IH].
Qed.

(** The element is added to the arrays of the object, unless its key is
    the name of the prototype accessor. *)
Lemma push_group_perm (k : string) (a : A) (o : JSObject (list A)) :
  ~ In proto_name (map fst o) ->
  Permutation (List.concat (map snd (push_group k a o)))
              (List.concat (map snd o)
               ++ (if String.eqb k proto_name then [] else [a])).
Proof.
  induction o as [| [k' vs] o IH]; simpl; intros Hno.
  - destruct (String.eqb k proto_name); reflexivity.
  - destruct (String.eqb_spec k k') as [-> | Hne]; simpl.
    + destruct (String.eqb_spec k' proto_name) as [-> | Hne'].
      * exfalso. apply Hno. now left.
      * rewrite <- !app_assoc.
        apply Permutation_app_head. apply Permutation_app_comm.
    + rewrite IH by (intros H; apply Hno; now right).
      now rewrite app_assoc.
Qed.

Lemma groupBy_NoDup (l : list A) : NoDup (map fst (groupBy f l)).
Proof.
  induction l as [| a l IH] using rev_ind.
  - constructor.
  - rewrite groupBy_snoc. now apply push_group_NoDup.
Qed.

Lemma groupBy_no_proto (l : list A) :
  ~ In proto_name (map fst (groupBy f l)).
Proof.
  induction l as [| a l IH] using rev_ind.
  - intros [].
  - rewrite groupBy_snoc. now apply push_group_no_proto.
Qed.

Lemma groupBy_uniform (l : list A) : uniform f (groupBy f l).
Proof.
  induction l as [| a l IH] using rev_ind.
  - constructor.
  - rewrite groupBy_snoc. now apply push_group_uniform.
Qed.

(** The arrays of a grouping hold the elements of the collection, but for
    those whose key is the name of the prototype accessor. *)
Lemma groupBy_perm (l : list A) :
  Permutation (List.concat (map snd (groupBy f l)))
              (filter (fun a => negb (String.eqb (f a) proto_name)) l).
Proof.
  induction l as [| a l IH] using rev_ind.
  - constructor.
  - rewrite groupBy_snoc, push_group_perm by apply groupBy_no_proto.
    rewrite filter_app. cbn [filter].
    apply Permutation_app; [exact IH |].
    now destruct (String.eqb (f a) proto_name).
Qed.

End GroupBy.

(** ** Flattening the categorised results *)

Lemma concat_perm_pointwise {A B : Type} (g h : A -> list B) (l : list A) :
  (forall a, In a l -> Permutation (g a) (h a)) ->
  Permutation (List.concat (map g l)) (List.concat (map h l)).
Proof.
  induction l as [| a l IH]; simpl; intros H.
  - constructor.
  - apply Permutation_app.
    + apply H. now left.
    + apply IH. intros b Hb. apply H. now right.
Qed.

Lemma concat_perm {B : Type} (l l' : list (list B)) :
  Permutation l l' -> Permutation (List.concat l) (List.concat l').
Proof.
  induction 1; simpl.
  - constructor.
  - now apply Permutation_app_head.
  - rewrite !app_assoc. apply Permutation_app_tail, Permutation_app_comm.
  - etransitivity; eassumption.
Qed.

(** The values of an object, flattened, are those of its properties in
    creation order up to a permutation. *)
Lemma Object_values_concat_perm {B : Type} (o : JSObject (list B)) :
  Permutation (List.concat (Object_values o)) (List.concat (map snd o)).
Proof.
  unfold Object_values.
  apply concat_perm, Permutation_map, Object_entries_perm.
Qed.

Lemma no_proto_Forall {V : Type} (o : JSObject V) :
  ~ In proto_name (map fst o) -> Forall (fun e => fst e <> proto_name) o.
Proof.
  intros Hno. apply Forall_forall. intros e He Heq.
  apply Hno. rewrite <- Heq. now apply in_map.
Qed.

Lemma library_name_not_proto (l : SearchResultLibrary) :
  String.eqb (library_name l) proto_name = false.
Proof. now destruct l. Qed.

(** The object [pageDividedResults] builds, property by property. *)
Lemma pageDividedResults_eq (results : list SearchResult) :
  pageDividedResults results
  = map (fun entry => (fst entry, groupBy page (snd entry)))
        (Object_entries (groupBy (fun r => library_name (library r)) results)).
Proof.
  unfold pageDividedResults.
  rewrite (fold_assign_fresh (groupBy page)); [reflexivity | |].
  - apply Object_entries_Forall, no_proto_Forall, groupBy_no_proto.
  - simpl. apply Object_entries_keys_NoDup, groupBy_NoDup.
Qed.

Lemma filter_all {A : Type} (g : A -> bool) (l : list A) :
  (forall a, In a l -> g a = true) -> filter g l = l.
Proof.
  induction l as [| a l IH]; cbn [filter]; intros H; [reflexivity |].
  rewrite (H a) by now left.
  f_equal. apply IH. intros b Hb. apply H. now right.
Qed.

Lemma filter_perm {A : Type} (g : A -> bool) (l l' : list A) :
  Permutation l l' -> Permutation (filter g l) (filter g l').
Proof.
  induction 1 as [| x l l' _ IH | x y l | l l' l'' _ IH1 _ IH2]; cbn [filter].
  - constructor.
  - destruct (g x); [now constructor | exact IH].
  - destruct (g x), (g y); try reflexivity. apply perm_swap.
  - etransitivity; eassumption.
Qed.

Lemma filter_concat {A : Type} (g : A -> bool) (L : list (list A)) :
  List.concat (map (filter g) L) = filter g (List.concat L).
Proof.
  induction L as [| l L IH]; cbn [map List.concat]; [reflexivity |].
  now rewrite filter_app, IH.
Qed.

(** The flattened list holds the results, but for those whose page is the
    name of the prototype accessor. *)
Lemma flatten_perm (results : list SearchResult) :
  Permutation (flattenSearchResults (pageDividedResults results))
              (filter kept results).
Proof.
  unfold flattenSearchResults, getDeepValues.
  set (byLibrary := groupBy (fun r => library_name (library r)) results).
  assert (Hlib : Permutation (List.concat (map snd (Object_entries byLibrary)))
                             results).
  { transitivity (List.concat (map snd byLibrary));
      [apply concat_perm, Permutation_map, Object_entries_perm |].
    subst byLibrary. rewrite groupBy_perm.
    rewrite filter_all; [reflexivity |].
    intros r _. now rewrite library_name_not_proto. }
  transitivity (filter kept (List.concat (map snd (Object_entries byLibrary))));
    [| now apply filter_perm].
  rewrite <- filter_concat, map_map.
  rewrite pageDividedResults_eq. fold byLibrary.
  set (C := map (fun entry => (fst entry, groupBy page (snd entry)))
                (Object_entries byLibrary)).
  transitivity
    (List.concat (map (fun pages => List.concat (Object_values pages)) (map snd C))).
  - apply concat_perm, Permutation_map.
    unfold Object_values. apply Permutation_map, Object_entries_perm.
  - subst C. rewrite !map_map. simpl.
    apply concat_perm_pointwise. intros entry _.
    rewrite Object_values_concat_perm. apply (groupBy_perm page).
Qed.

Lemma flatten_length (results : list SearchResult) :
  List.length (flattenSearchResults (pageDividedResults results))
  = List.length (filter kept results).
Proof. apply Permutation_length, flatten_perm. Qed.

(** When no page is the name of the prototype accessor, the flattened list
    holds every result. *)
Lemma flatten_perm_all_kept (results : list SearchResult) :
  Forall (fun r => page r <> proto_name) results ->
  Permutation (flattenSearchResults (pageDividedResults results)) results.
Proof.
  intros Hall. rewrite flatten_perm, filter_all; [reflexivity |].
  intros r Hr. rewrite Forall_forall in Hall.
  unfold kept. apply negb_true_iff, String.eqb_neq. now apply Hall.
Qed.

(** ** Contiguity *)

Section Contiguity.

Context {A K : Type} (key : A -> K).

Lemma contiguous_uniform (k : K) (l : list A) :
  Forall (fun x => key x = k) l -> contiguous_by key l.
Proof.
  intros Hall l1 a l2 b l3 -> _.
  rewrite Forall_forall in *.
  intros x Hx.
  rewrite (Hall x), (Hall a); auto using in_or_app, in_eq, in_cons.
  apply in_or_app. right. right. apply in_or_app. now left.
Qed.

Lemma contiguous_app (X Y : list A) :
  contiguous_by key X ->
  contiguous_by key Y ->
  (forall x y, In x X -> In y Y -> key x <> key y) ->
  contiguous_by key (X ++ Y).
Proof.
  intros HX HY Hsep l1 a l2 b l3 Heq Hab.
  apply app_eq_app in Heq.
  destruct Heq as [z [[-> Hz] | [-> Hz]]].
  - (* the first element lies in X *)
    destruct z as [| a' z'].
    + simpl in Hz. subst Y.
      apply (HY [] a l2 b l3); auto.
    + simpl in Hz. injection Hz as <- Hz.
      apply app_eq_app in Hz.
      destruct Hz as [w [[-> Hw] | [-> Hw]]].
      * (* the second lies in Y: the keys differ *)
        exfalso. apply (Hsep a b); auto.
        -- apply in_or_app. right. now left.
        -- rewrite Hw. apply in_or_app. right. now left.
      * destruct w as [| b' w'].
        -- simpl in Hw. exfalso. apply (Hsep a b); auto.
           ++ apply in_or_app. right. now left.
           ++ rewrite <- Hw. now left.
        -- simpl in Hw. injection Hw as <- Hw.
           apply (HX l1 a l2 b w'); auto.
  - (* both lie in Y *)
    subst Y. apply (HY z a l2 b l3); auto.
Qed.

(** A list made of blocks with pairwise different keys, each block of one
    key, is contiguous. *)
Lemma contiguous_blocks (blocks : list (K * list A)) :
  NoDup (map fst blocks) ->
  uniform key blocks ->
  contiguous_by key (List.concat (map snd blocks)).
Proof.
  unfold uniform.
  induction blocks as [| [k vs] blocks IH]; simpl; intros Hnd Hu.
  - intros l1 a l2 b l3 Heq. now destruct l1.
  - inversion Hnd as [| ? ? Hk Hnd']; subst.
    inversion Hu as [| ? ? Hvs Hu']; subst. simpl in Hvs.
    apply contiguous_app.
    + now apply contiguous_uniform with k.
    + now apply IH.
    + intros x y Hx Hy Hxy.
      rewrite Forall_forall in Hvs. rewrite (Hvs x Hx) in Hxy.
      apply in_concat in Hy. destruct Hy as [ys [Hys Hy]].
      apply in_map_iff in Hys. destruct Hys as [[k' ys'] [<- Hin]].
      rewrite Forall_forall in Hu'. specialize (Hu' _ Hin).
      simpl in *. rewrite Forall_forall in Hu'.
      rewrite (Hu' y Hy) in Hxy. subst k'.
      apply Hk. apply in_map_iff. now exists (k, ys').
Qed.

Lemma contiguous_by_ext {K' : Type} (key' : A -> K') (l : list A) :
  (forall x y, key' x = key' y <-> key x = key y) ->
  contiguous_by key l -> contiguous_by key' l.
Proof.
  intros Hext H l1 a l2 b l3 Heq Hab.
  apply Hext in Hab.
  specialize (H l1 a l2 b l3 Heq Hab).
  eapply Forall_impl; [| exact H].
  intros x Hx. now apply Hext.
Qed.

End Contiguity.

(** ** The flattened list, bucket by bucket *)

Lemma buckets_concat {B : Type} (c : JSObject (JSObject (list B))) :
  List.concat (map snd (buckets c))
  = List.concat (map (fun pages => List.concat (Object_values pages))
                     (Object_values c)).
Proof.
  unfold buckets, Object_values.
  induction (Object_entries c) as [| entry L IH]; simpl.
  - reflexivity.
  - rewrite map_app, concat_app, IH. f_equal.
    now rewrite map_map.
Qed.

Lemma pair_keys_NoDup (k : string) (ks : list string) :
  NoDup ks -> NoDup (map (pair k) ks).
Proof.
  induction 1 as [| x ks Hx Hnd IH]; simpl; constructor; auto.
  rewrite in_map_iff. intros [y [Heq Hy]].
  injection Heq as ->. contradiction.
Qed.

Lemma buckets_NoDup {B : Type} (c : JSObject (JSObject (list B))) :
  NoDup (map fst c) ->
  (forall entry, In entry c -> NoDup (map fst (snd entry))) ->
  NoDup (map fst (buckets c)).
Proof.
  intros Hc Hin.
  apply Object_entries_keys_NoDup in Hc.
  assert (Hin' : forall entry, In entry (Object_entries c) ->
                               NoDup (map fst (Object_entries (snd entry)))).
  { intros entry He. apply Object_entries_keys_NoDup, Hin.
    eapply Permutation_in; [apply Object_entries_perm | exact He]. }
  unfold buckets. clear Hin.
  induction (Object_entries c) as [| entry L IH]; simpl.
  - constructor.
  - inversion Hc as [| ? ? Hfresh Hc']; subst.
    rewrite map_app. apply NoDup_app.
    + rewrite map_map. simpl.
      rewrite <- (map_map fst (pair (fst entry))).
      apply pair_keys_NoDup, Hin'. now left.
    + apply IH; [exact Hc' |]. intros e He. apply Hin'. now right.
    + intros [lk pk] H1 H2.
      rewrite map_map, in_map_iff in H1. destruct H1 as [b [Hb _]].
      simpl in Hb. injection Hb as <- _.
      rewrite in_map_iff in H2. destruct H2 as [[[lk' pk'] vs] [Hk H2]].
      simpl in Hk. injection Hk as -> ->.
      rewrite in_flat_map in H2. destruct H2 as [e [He H2]].
      rewrite in_map_iff in H2. destruct H2 as [b' [Hb' _]].
      injection Hb' as Hlk _ _.
      apply Hfresh. rewrite <- Hlk. now apply in_map.
Qed.

Lemma buckets_uniform (results : list SearchResult) :
  uniform bucket_names (buckets (pageDividedResults results)).
Proof.
  unfold uniform, buckets.
  rewrite Forall_forall. intros [[lk pk] vs] Hin. simpl.
  rewrite in_flat_map in Hin. destruct Hin as [entry [He Hb]].
  rewrite in_map_iff in Hb. destruct Hb as [b [Hb Hbin]].
  injection Hb as <- <- <-.
  apply (Permutation_in _ (Object_entries_perm _)) in He.
  apply (Permutation_in _ (Object_entries_perm _)) in Hbin.
  rewrite pageDividedResults_eq, in_map_iff in He.
  destruct He as [e0 [<- He0]]. simpl in *.
  apply (Permutation_in _ (Object_entries_perm _)) in He0.
  pose proof (groupBy_uniform (fun r => library_name (library r)) results) as Hlib.
  pose proof (groupBy_uniform page (snd e0)) as Hpage.
  unfold uniform in *. rewrite Forall_forall in Hlib, Hpage.
  specialize (Hlib _ He0). specialize (Hpage _ Hbin).
  rewrite Forall_forall in *. intros x Hx.
  unfold bucket_names. f_equal.
  - apply Hlib.
    assert (Hf : In x (filter (fun a => negb (String.eqb (page a) proto_name))
                              (snd e0))).
    { apply (Permutation_in _ (groupBy_perm page (snd e0))).
      apply in_concat. exists (snd b). split; [now apply in_map | exact Hx]. }
    apply filter_In in Hf. apply Hf.
  - now apply Hpage.
Qed.

Lemma library_name_inj (a b : SearchResultLibrary) :
  library_name a = library_name b -> a = b.
Proof. destruct a, b; simpl; congruence. Qed.

Lemma flatten_contiguous (results : list SearchResult) :
  contiguous_by bucket (flattenSearchResults (pageDividedResults results)).
Proof.
  apply contiguous_by_ext with (key := bucket_names).
  { intros x y. unfold bucket, bucket_names. split; intros H.
    - injection H as H1 H2. now rewrite H1, H2.
    - injection H as H1 H2. apply library_name_inj in H1. now rewrite H1, H2. }
  unfold flattenSearchResults, getDeepValues.
  rewrite <- buckets_concat.
  apply contiguous_blocks.
  - apply buckets_NoDup.
    + rewrite pageDividedResults_eq, map_map. simpl.
      apply Object_entries_keys_NoDup, groupBy_NoDup.
    + intros entry He. rewrite pageDividedResults_eq, in_map_iff in He.
      destruct He as [e0 [<- _]]. simpl. apply groupBy_NoDup.
  - apply buckets_uniform.
Qed.

(** The [indexedResults] memo of either variant is the flattening of
    [pageDividedResults] at the stored results. *)
Lemma indexedResults_of_results (s : Suggest.State) (p : Plain.State)
      (results : list SearchResult) :
  (Suggest.results s = Some results ->
   Suggest.indexedResults s = flattenSearchResults (pageDividedResults results))
  /\ Plain.indexedResults p
     = flattenSearchResults (pageDividedResults (Plain.results p)).
Proof.
  split; [| reflexivity].
  intros H. unfold Suggest.indexedResults, Suggest.categorisedResults.
  now rewrite H.
Qed.

(** What the flattening of the categorised results does for every list:
    it holds the results that are kept, those of each (library, page) pair
    next to each other, and so it is a permutation of the list when no page
    is the name of the prototype accessor. *)
Lemma flatten_categorised_kept (results : list SearchResult) :
  let indexed := flattenSearchResults (pageDividedResults results) in
  Permutation indexed (filter kept results)
  /\ contiguous_by bucket indexed
  /\ (Forall (fun r => page r <> proto_name) results ->
      Permutation indexed results).
Proof.
  cbv zeta.
  split; [apply flatten_perm |].
  split; [apply flatten_contiguous | apply flatten_perm_all_kept].
Qed.

(** C2.  The flattened list is not a permutation of every non-empty list of
    results: a hit whose page is [__proto__] is filed in no array of the
    categorised object and is missing from the flattened list.  Of the three
    sample hits followed by such a hit, the categorised object is the one of
    the three alone, and the flattened list holds the three and not the
    fourth; of that hit alone, it holds nothing. *)
Theorem C2_hit_filed_under_proto_is_lost :
  let results := Sample.three_hits ++ [Sample.proto_hit] in
  let indexed := flattenSearchResults (pageDividedResults results) in
  results <> []
  /\ pageDividedResults results = pageDividedResults Sample.three_hits
  /\ indexed = flattenSearchResults (pageDividedResults Sample.three_hits)
  /\ List.length results = 4
  /\ List.length indexed = 3
  /\ ~ In Sample.proto_hit indexed
  /\ ~ Permutation indexed results
  /\ flattenSearchResults (pageDividedResults [Sample.proto_hit]) = [].
Proof.
  cbv zeta.
  split; [discriminate |].
  split; [vm_compute; reflexivity |].
  split; [vm_compute; reflexivity |].
  split; [reflexivity |].
  split; [vm_compute; reflexivity |].
  split.
  { vm_compute. intros [H | [H | [H | []]]]; discriminate H. }
  split; [| vm_compute; reflexivity].
  intros H. apply Permutation_length in H. vm_compute in H. discriminate H.
Qed.

(** ** The effects leave everything but the cursors alone *)

Ltac effects_cases :=
  match goal with
  | |- context [Suggest.effects ?prev ?next] => destruct prev, next
  end;
  unfold Suggest.effects; simpl;
  repeat match goal with
         | |- context [if ?b then _ else _] => destruct b; simpl
         end;
  try reflexivity.

Lemma effects_value prev next :
  Suggest.value (Suggest.effects prev next) = Suggest.value next.
Proof. effects_cases. Qed.

Lemma effects_isOpen prev next :
  Suggest.isOpen (Suggest.effects prev next) = Suggest.isOpen next.
Proof. effects_cases. Qed.

Lemma effects_results prev next :
  Suggest.results (Suggest.effects prev next) = Suggest.results next.
Proof. effects_cases. Qed.

Lemma effects_pending prev next :
  Suggest.pending (Suggest.effects prev next) = Suggest.pending next.
Proof. effects_cases. Qed.

Lemma effects_now prev next :
  Suggest.now (Suggest.effects prev next) = Suggest.now next.
Proof. effects_cases. Qed.

Lemma effects_motionSite prev next :
  Suggest.motionSite (Suggest.effects prev next) = Suggest.motionSite next.
Proof. effects_cases. Qed.

Lemma effects_documentTitle prev next :
  Suggest.documentTitle (Suggest.effects prev next) = Suggest.documentTitle next.
Proof. effects_cases. Qed.

Lemma effects_requests prev next :
  Suggest.requests (Suggest.effects prev next) = Suggest.requests next.
Proof. effects_cases. Qed.

Lemma effects_settled prev next :
  Suggest.settled (Suggest.effects prev next) = Suggest.settled next.
Proof. effects_cases. Qed.

Lemma effects_location prev next :
  Suggest.location (Suggest.effects prev next) = Suggest.location next.
Proof. effects_cases. Qed.

Lemma effects_console prev next :
  Suggest.console (Suggest.effects prev next) = Suggest.console next.
Proof. effects_cases. Qed.

Lemma effects_uncaught prev next :
  Suggest.uncaught (Suggest.effects prev next) = Suggest.uncaught next.
Proof. effects_cases. Qed.

Lemma effects_isSuggesting prev next :
  Suggest.isSuggesting (Suggest.effects prev next) = Suggest.isSuggesting next.
Proof. unfold Suggest.isSuggesting. now rewrite effects_results. Qed.

Lemma effects_mode prev next :
  Suggest.mode (Suggest.effects prev next) = Suggest.mode next.
Proof.
  unfold Suggest.mode, Suggest.isEmpty.
  now rewrite effects_isSuggesting, effects_results.
Qed.

Lemma effects_in_flight id prev next :
  Suggest.in_flight id (Suggest.effects prev next) = Suggest.in_flight id next.
Proof.
  unfold Suggest.in_flight. now rewrite effects_requests, effects_settled.
Qed.

(** When neither dependency changed, no effect runs. *)
Lemma effects_idle prev next :
  Suggest.isOpen prev = Suggest.isOpen next ->
  Suggest.isSuggesting prev = Suggest.isSuggesting next ->
  Suggest.effects prev next = next.
Proof.
  intros H1 H2. unfold Suggest.effects.
  rewrite H1, H2, !Bool.eqb_reflx. reflexivity.
Qed.

Lemma run_app (s : Suggest.State) (es1 es2 : list Suggest.Event) :
  Suggest.run s (es1 ++ es2) = Suggest.run (Suggest.run s es1) es2.
Proof. unfold Suggest.run. apply fold_left_app. Qed.

(** ** C1: responses are stored in the order they arrive *)

(** C1 (as stated).  The response of the older request, arriving after the
    response of the newer one, is not dropped: in the sample session the
    results on display end up being those of the older request. *)
Lemma C1_stale_response_is_stored : ~ stale_response_dropped.
Proof.
  intros H.
  specialize (H Sample.two_in_flight 0%nat 1%nat Sample.three_hits Sample.one_hit).
  vm_compute in H.
  specialize (H (Nat.le_refl 1) eq_refl eq_refl).
  discriminate H.
Qed.

(** C1 (amended).  No request carries a token and no response is checked
    against one: the callback of every answered request stores its hits.
    When two requests are in flight and the response of one arrives after
    the response of the other, the results on display are those of the one
    that arrived last, whichever request was sent first.  This holds in both
    variants of the component. *)
Theorem C1_last_arrival_is_stored (a b : nat) (hitsA hitsB : list SearchResult) :
  a <> b ->
  (forall s : Suggest.State,
      Suggest.in_flight a s = true ->
      Suggest.in_flight b s = true ->
      Suggest.results
        (Suggest.run s [Suggest.Resolve b hitsB; Suggest.Resolve a hitsA])
      = Some hitsA)
  /\ (forall p : Plain.State,
         Plain.in_flight a p = true ->
         Plain.in_flight b p = true ->
         Plain.results
           (Plain.run p [Plain.Resolve b hitsB; Plain.Resolve a hitsA])
         = hitsA).
Proof.
  intros Hab. split.
  - intros s Ha Hb.
    unfold Suggest.run. simpl. unfold Suggest.step at 2. simpl.
    rewrite Hb.
    unfold Suggest.step. simpl.
    rewrite effects_in_flight.
    assert (Ha' : Suggest.in_flight a
                    (Suggest.on_hits hitsB (Suggest.settle b s)) = true).
    { unfold Suggest.in_flight in *. simpl.
      apply andb_true_iff in Ha. destruct Ha as [Ha1 Ha2].
      rewrite Ha1. simpl.
      apply Nat.eqb_neq in Hab. rewrite Hab. exact Ha2. }
    rewrite Ha'. rewrite effects_results. reflexivity.
  - intros p Ha Hb.
    unfold Plain.run. simpl. rewrite Hb.
    assert (Ha' : Plain.in_flight a
                    (Plain.on_hits hitsB (Plain.settle b p)) = true).
    { unfold Plain.in_flight in *. simpl.
      apply andb_true_iff in Ha. destruct Ha as [Ha1 Ha2].
      rewrite Ha1. simpl.
      apply Nat.eqb_neq in Hab. rewrite Hab. exact Ha2. }
    rewrite Ha'. reflexivity.
Qed.

(** C1 (amended) at the sample sessions with two requests in flight. *)
Lemma C1_last_arrival_is_stored_witness :
  Suggest.results
    (Suggest.run Sample.two_in_flight
       [Suggest.Resolve 1 Sample.one_hit; Suggest.Resolve 0 Sample.three_hits])
  = Some Sample.three_hits
  /\ Plain.results
       (Plain.run Sample.plain_two_in_flight
          [Plain.Resolve 1 Sample.one_hit; Plain.Resolve 0 Sample.three_hits])
     = Sample.three_hits.
Proof.
  destruct (C1_last_arrival_is_stored 0 1 Sample.three_hits Sample.one_hit)
    as [HS HP].
  - discriminate.
  - split.
    + apply HS; reflexivity.
    + apply HP; reflexivity.
Defined.

(** ** Sessions of the overlay *)

(** Typing a query that is answered with three results in two categories
    shows them, flattened to three entries, with the cursor on the first. *)
Example session_results_shown :
  let s := Suggest.run (Suggest.initial false "")
             [Suggest.Focus; Suggest.Change (FormEvent "drag");
              Suggest.Elapse 200; Suggest.Resolve 0 Sample.three_hits] in
  map query (Suggest.requests s) = ["drag"]
  /\ Suggest.mode s = Suggest.Showing
  /\ List.length (Suggest.indexedResults s) = 3
  /\ Suggest.resultIndex s = 0%Z.
Proof. vm_compute. repeat split. Qed.

(** With the cursor on the second of three results, ArrowDown moves it to
    the third, a second ArrowDown leaves it there, and Enter navigates once,
    to the target of that result, and closes the overlay. *)
Example session_arrows_then_enter :
  let s := Suggest.run (Suggest.initial false "")
             [Suggest.Focus; Suggest.Change (FormEvent "drag");
              Suggest.Elapse 200; Suggest.Resolve 0 Sample.three_hits;
              Suggest.press "ArrowDown"] in
  let s1 := Suggest.step s (Suggest.press "ArrowDown") in
  let s2 := Suggest.step s1 (Suggest.press "ArrowDown") in
  let s3 := Suggest.step s2 (Suggest.press "Enter") in
  Suggest.resultIndex s = 1%Z
  /\ Suggest.resultIndex s1 = 2%Z
  /\ Suggest.resultIndex s2 = 2%Z
  /\ Suggest.location s3 = ["/api/scroll/"]
  /\ Suggest.isOpen s3 = false.
Proof. vm_compute. repeat split. Qed.

(** ** C3: a replaced result list keeps the old cursor *)

(** The effect on [isSuggesting] does reset a cursor when the active list
    changes from the suggestions to the results: the suggestions cursor goes
    back to 0. *)
Lemma leaving_suggestions_resets_their_cursor
      (s : Suggest.State) (id : nat) (hits : list SearchResult) :
  Suggest.in_flight id s = true ->
  Suggest.isSuggesting s = true ->
  hits <> [] ->
  Suggest.suggestedIndex (Suggest.step s (Suggest.Resolve id hits)) = 0%Z.
Proof.
  intros Hin Hsug Hhits.
  unfold Suggest.step. simpl. rewrite Hin.
  unfold Suggest.effects. simpl. rewrite Bool.eqb_reflx, Hsug.
  unfold Suggest.isSuggesting at 1. simpl.
  destruct hits as [| h hits]; [congruence |]. simpl.
  unfold Suggest.suggestedResults. simpl.
  now destruct (Suggest.motionSite s).
Qed.

(** C3.  The result list is replaced without a reset of its cursor when one
    non-empty answer follows another.  In the sample session the first
    answer has three results and the cursor is moved to index 2; the second
    answer has one result, and the cursor is still 2: it points past the end
    of the list, no result is selected, and Enter reads [href] of
    [undefined]. *)
Theorem C3_cursor_left_past_the_end :
  let s := Sample.narrowed in
  Suggest.mode s = Suggest.Showing
  /\ Suggest.indexedResults s = Sample.one_hit
  /\ Suggest.resultIndex s = 2%Z
  /\ Suggest.selectedResult s = None
  /\ ~ cursor_within_results s
  /\ Suggest.location (Suggest.step s (Suggest.press "Enter")) = []
  /\ Suggest.uncaught (Suggest.step s (Suggest.press "Enter")) = ["TypeError"].
Proof.
  repeat split; try (vm_compute; reflexivity).
  intros H.
  assert (Hne : Suggest.indexedResults Sample.narrowed <> [])
    by (vm_compute; discriminate).
  specialize (H Hne). vm_compute in H.
  destruct H as [_ H]. discriminate H.
Qed.

(** ** C4: Enter in Empty mode *)

Lemma suggestedResults_size (s : Suggest.State) :
  Cursor.size (Suggest.suggestedResults s) = 4%Z.
Proof. unfold Suggest.suggestedResults. now destruct (Suggest.motionSite s). Qed.

Lemma effects_suggested_in_range prev next :
  suggested_in_range next -> suggested_in_range (Suggest.effects prev next).
Proof.
  unfold suggested_in_range, Suggest.effects.
  unfold Suggest.setSuggestedResult, Suggest.setResult.
  intros H.
  repeat match goal with
         | |- context [if ?b then _ else _] => destruct b; simpl
         end;
    rewrite ?suggestedResults_size; simpl; try exact H;
    unfold Cursor.set, Cursor.clamp; simpl; lia.
Qed.

Lemma handle_suggested_in_range e s :
  suggested_in_range s -> suggested_in_range (Suggest.handle e s).
Proof.
  unfold suggested_in_range. intros H.
  destruct e as [ev | | | ev active | ms | id hits | id err]; simpl.
  - unfold Suggest.handleChange.
    destruct (truthy (changed_value ev)); simpl; exact H.
  - exact H.
  - exact H.
  - unfold Suggest.handleKey, Suggest.handleChange, Suggest.go_to.
    repeat match goal with
           | |- context [if ?b then _ else _] => destruct b; simpl
           | |- context [match ?o with Some _ => _ | None => _ end] =>
               destruct o; simpl
           end;
      rewrite ?suggestedResults_size; try exact H;
      unfold Cursor.previous, Cursor.next; simpl; lia.
  - unfold Suggest.elapse. simpl.
    destruct (Suggest.pending s) as [[v t] |]; simpl; [| exact H].
    destruct (t + debounce_wait <=? Suggest.now s + ms)%nat; simpl; exact H.
  - destruct (Suggest.in_flight id s); simpl; exact H.
  - destruct (Suggest.in_flight id s); simpl; exact H.
Qed.

Lemma reachable_suggested_in_range (s : Suggest.State) :
  reachable s -> suggested_in_range s.
Proof.
  intros [motion [title [events ->]]].
  induction events as [| e events IH] using rev_ind.
  - unfold suggested_in_range. simpl. lia.
  - rewrite run_app. simpl.
    apply effects_suggested_in_range, handle_suggested_in_range, IH.
Qed.

Lemma mode_Empty_isSuggesting (s : Suggest.State) :
  Suggest.mode s = Suggest.Empty -> Suggest.isSuggesting s = true.
Proof.
  unfold Suggest.mode. destruct (Suggest.isSuggesting s); [reflexivity |].
  discriminate.
Qed.

Lemma in_range_selected (s : Suggest.State) :
  suggested_in_range s ->
  exists r, Suggest.selectedSuggestedResult s = Some r.
Proof.
  unfold suggested_in_range, Suggest.selectedSuggestedResult, Cursor.item.
  intros H.
  destruct (Z.ltb_spec (Suggest.suggestedIndex s) 0) as [Hneg | _]; [lia |].
  destruct (nth_error (Suggest.suggestedResults s)
                      (Z.to_nat (Suggest.suggestedIndex s))) as [r |] eqn:E.
  - now exists r.
  - exfalso. apply nth_error_None in E.
    pose proof (suggestedResults_size s) as Hsize. unfold Cursor.size in Hsize.
    lia.
Qed.

(** C4 (as stated).  In Empty mode Enter is not a no-op: in the sample
    session, where the query has no match, Enter navigates. *)
Lemma C4_enter_navigates_in_empty_mode : ~ enter_is_noop_when_empty.
Proof.
  intros H.
  specialize (H Sample.no_match eq_refl eq_refl).
  vm_compute in H. discriminate H.
Qed.

(** C4 (amended).  In Empty mode the list the keyboard acts on is the
    suggestion list, which is never empty.  Pressing Enter closes the
    overlay and navigates to the target of the selected suggestion; no
    exception leaves the handler. *)
Theorem C4_enter_in_empty_mode_opens_suggestion
        (s : Suggest.State) (event : KeyboardEvent) (active : ActiveElement) :
  reachable s ->
  Suggest.isOpen s = true ->
  Suggest.mode s = Suggest.Empty ->
  key event = "Enter" ->
  let s' := Suggest.step s (Suggest.KeyDown event active) in
  Suggest.activeList s = Suggest.suggestedResults s
  /\ Suggest.activeList s <> []
  /\ exists r,
      Suggest.selectedSuggestedResult s = Some r
      /\ Suggest.location s' = Suggest.location s ++ [href r]
      /\ Suggest.isOpen s' = false
      /\ Suggest.uncaught s' = Suggest.uncaught s.
Proof.
  intros Hreach Hopen Hmode Hkey s'.
  pose proof (mode_Empty_isSuggesting s Hmode) as Hsug.
  split; [unfold Suggest.activeList; now rewrite Hsug |].
  split.
  { unfold Suggest.activeList, Suggest.suggestedResults. rewrite Hsug.
    destruct (Suggest.motionSite s); discriminate. }
  destruct (in_range_selected s (reachable_suggested_in_range s Hreach))
    as [r Hr].
  exists r. split; [exact Hr |].
  subst s'. unfold Suggest.step.
  rewrite effects_location, effects_isOpen, effects_uncaught.
  simpl. unfold Suggest.handleKey.
  rewrite Hopen, Hkey, Hsug, Hr. simpl.
  repeat split.
Qed.

(** C4 (amended) at the sample session whose query has no match. *)
Lemma C4_enter_in_empty_mode_opens_suggestion_witness :
  Suggest.location (Suggest.step Sample.no_match (Suggest.press "Enter"))
  = ["/api/frame/#animationprops.animate"].
Proof.
  destruct (C4_enter_in_empty_mode_opens_suggestion
              Sample.no_match (mkKey "Enter" false false false) Body)
    as [_ [_ [r [Hr [Hloc _]]]]].
  - exists false, "".
    exists [Suggest.Focus; Suggest.Change (FormEvent "zzz"); Suggest.Elapse 200;
            Suggest.Resolve 0 []].
    reflexivity.
  - reflexivity.
  - reflexivity.
  - reflexivity.
  - unfold Suggest.press. rewrite Hloc.
    vm_compute in Hr. injection Hr as <-. reflexivity.
Defined.

(** ** C5: closing the overlay *)

Lemma indexedResults_size_nonzero (s : Suggest.State) :
  Suggest.indexedResults s <> [] ->
  (Cursor.size (Suggest.indexedResults s) =? 0)%Z = false.
Proof.
  intros H. apply Z.eqb_neq. unfold Cursor.size.
  destruct (Suggest.indexedResults s); [congruence | simpl; lia].
Qed.

Lemma close_step (s : Suggest.State) (e : Suggest.Event) :
  Suggest.isOpen s = true ->
  closes e ->
  Suggest.step s e
  = Suggest.setSuggestedResult 0 (Suggest.setResult 0 (Suggest.setOpen false s)).
Proof.
  intros Hopen Hclose.
  assert (Hh : Suggest.handle e s = Suggest.setOpen false s).
  { destruct Hclose as [[event [active [-> Hkey]]] | ->]; simpl.
    - unfold Suggest.handleKey. now rewrite Hopen, Hkey.
    - reflexivity. }
  unfold Suggest.step. rewrite Hh.
  unfold Suggest.effects. simpl. rewrite Hopen. simpl.
  unfold Suggest.isSuggesting. simpl.
  destruct (Suggest.results s) as [rs |]; simpl.
  - now rewrite Bool.eqb_reflx.
  - reflexivity.
Qed.

(** C5 (as stated).  Closing does not clear the query text: in the sample
    session the text typed before Escape is still in the input after it. *)
Lemma C5_close_keeps_query_text : ~ close_resets_and_clears.
Proof.
  intros H.
  specialize (H Sample.typing (Suggest.press "Escape") eq_refl).
  assert (Hc : closes (Suggest.press "Escape")).
  { left. exists (mkKey "Escape" false false false), Body. now split. }
  destruct (H Hc) as [_ [_ [_ Hvalue]]].
  vm_compute in Hvalue. discriminate Hvalue.
Qed.

(** C5 (amended).  On every transition from an open state to the closed
    state, by Escape or by a click outside, the suggestions cursor is reset
    to 0, and the results cursor is reset to 0 when the result list is not
    empty; the query text and the stored results are kept. *)
Theorem C5_close_resets_cursors_keeps_query
        (s : Suggest.State) (e : Suggest.Event) :
  Suggest.isOpen s = true ->
  closes e ->
  let s' := Suggest.step s e in
  Suggest.isOpen s' = false
  /\ Suggest.suggestedIndex s' = 0%Z
  /\ (Suggest.indexedResults s <> [] -> Suggest.resultIndex s' = 0%Z)
  /\ Suggest.value s' = Suggest.value s
  /\ Suggest.results s' = Suggest.results s.
Proof.
  intros Hopen Hclose s'. subst s'.
  rewrite (close_step s e Hopen Hclose).
  repeat split.
  - simpl. unfold Suggest.suggestedResults. simpl.
    now destruct (Suggest.motionSite s).
  - intros Hne. simpl. unfold Cursor.set.
    change (Suggest.indexedResults (Suggest.setOpen false s))
      with (Suggest.indexedResults s).
    rewrite (indexedResults_size_nonzero s Hne).
    unfold Cursor.clamp, Cursor.size.
    destruct (Suggest.indexedResults s); [congruence | simpl List.length; lia].
Qed.

(** C5 (amended) at the sample session with the cursor past the end. *)
Lemma C5_close_resets_cursors_keeps_query_witness :
  let s' := Suggest.step Sample.narrowed Suggest.ClickOutside in
  Suggest.isOpen s' = false
  /\ Suggest.suggestedIndex s' = 0%Z
  /\ Suggest.resultIndex s' = 0%Z
  /\ Suggest.value s' = "dr".
Proof.
  destruct (C5_close_resets_cursors_keeps_query
              Sample.narrowed Suggest.ClickOutside)
    as [Ho [Hs [Hr [Hv _]]]].
  - reflexivity.
  - now right.
  - cbv zeta.
    split; [exact Ho |].
    split; [exact Hs |].
    split; [apply Hr; vm_compute; discriminate |].
    rewrite Hv. vm_compute. reflexivity.
Defined.

(** ** C6: a burst of changes sends one request *)

Lemma truthy_nonempty (v : string) : v <> "" -> truthy v = true.
Proof.
  intros H. unfold truthy. apply negb_true_iff. now apply String.eqb_neq.
Qed.

Lemma step_change_nonempty (s : Suggest.State) (v : string) :
  v <> "" ->
  Suggest.step s (Suggest.Change (FormEvent v))
  = Suggest.search v (Suggest.setValue v s).
Proof.
  intros Hv. unfold Suggest.step. simpl. unfold Suggest.handleChange. simpl.
  rewrite (truthy_nonempty v Hv).
  now apply effects_idle.
Qed.

Lemma step_elapse (s : Suggest.State) (ms : nat) :
  Suggest.step s (Suggest.Elapse ms) = Suggest.elapse ms s.
Proof.
  unfold Suggest.step. simpl. apply effects_idle; unfold Suggest.elapse; simpl;
    destruct (Suggest.pending s) as [[v t] |]; simpl; try reflexivity;
    destruct (t + debounce_wait <=? Suggest.now s + ms)%nat; reflexivity.
Qed.

(** A change followed by less than the wait leaves the timer pending. *)
Lemma change_then_short_gap (s : Suggest.State) (v : string) (gap : nat) :
  v <> "" ->
  gap < debounce_wait ->
  Suggest.run s [Suggest.Change (FormEvent v); Suggest.Elapse gap]
  = Suggest.with_now (Suggest.now s + gap)
      (Suggest.search v (Suggest.setValue v s)).
Proof.
  intros Hv Hgap. unfold Suggest.run. simpl.
  rewrite step_change_nonempty by exact Hv.
  rewrite step_elapse. unfold Suggest.elapse. simpl.
  destruct (Nat.leb_spec (Suggest.now s + debounce_wait) (Suggest.now s + gap));
    [lia | reflexivity].
Qed.

(** A change followed by the wait or more sends the request for it. *)
Lemma change_then_quiet (s : Suggest.State) (v : string) (quiet : nat) :
  v <> "" ->
  debounce_wait <= quiet ->
  Suggest.requests
    (Suggest.run s [Suggest.Change (FormEvent v); Suggest.Elapse quiet])
  = Suggest.requests s ++ [mkRequest v 10 (Suggest.search_filters s)].
Proof.
  intros Hv Hq. unfold Suggest.run. simpl.
  rewrite step_change_nonempty by exact Hv.
  rewrite step_elapse. unfold Suggest.elapse. simpl.
  destruct (Nat.leb_spec (Suggest.now s + debounce_wait) (Suggest.now s + quiet));
    [reflexivity | lia].
Qed.

Lemma burst_sends_nothing (calls : list (string * nat)) :
  Forall (fun c => fst c <> "" /\ snd c < debounce_wait) calls ->
  forall s : Suggest.State,
    Suggest.requests (Suggest.run s (Suggest.burst calls)) = Suggest.requests s
    /\ Suggest.search_filters (Suggest.run s (Suggest.burst calls))
       = Suggest.search_filters s.
Proof.
  induction 1 as [| [v gap] calls [Hv Hgap] _ IH]; intros s.
  - now split.
  - simpl in Hv, Hgap.
    change (Suggest.burst ((v, gap) :: calls))
      with ([Suggest.Change (FormEvent v); Suggest.Elapse gap]
              ++ Suggest.burst calls).
    rewrite run_app, (change_then_short_gap s v gap Hv Hgap).
    destruct (IH (Suggest.with_now (Suggest.now s + gap)
                    (Suggest.search v (Suggest.setValue v s)))) as [H1 H2].
    rewrite H1, H2. now split.
Qed.

(** C6.  When the input changes several times in a row, each time to a
    non-empty text and each time less than the debounce wait of 200 ms after
    the change before, no request is sent during the burst; once 200 ms have
    passed after the last change, exactly one request has been sent, and it
    is the one for the text of the last change. *)
Theorem C6_burst_sends_last_only
        (s : Suggest.State) (calls : list (string * nat))
        (v : string) (quiet : nat) :
  Forall (fun c => fst c <> "" /\ snd c < debounce_wait) calls ->
  v <> "" ->
  debounce_wait <= quiet ->
  Suggest.requests (Suggest.run s (Suggest.burst calls)) = Suggest.requests s
  /\ Suggest.requests
       (Suggest.run s (Suggest.burst calls
                         ++ [Suggest.Change (FormEvent v); Suggest.Elapse quiet]))
     = Suggest.requests s ++ [mkRequest v 10 (Suggest.search_filters s)].
Proof.
  intros Hcalls Hv Hq.
  destruct (burst_sends_nothing calls Hcalls s) as [Hreq Hfil].
  split; [exact Hreq |].
  rewrite run_app, (change_then_quiet _ v quiet Hv Hq).
  now rewrite Hreq, Hfil.
Qed.

(** C6 at a burst of three changes followed by a fourth and a quiet period. *)
Lemma C6_burst_sends_last_only_witness :
  map query
      (Suggest.requests
         (Suggest.run (Suggest.initial false "")
            (Suggest.burst [("d", 50); ("dr", 120); ("dra", 199)]
               ++ [Suggest.Change (FormEvent "drag"); Suggest.Elapse 200])))
  = ["drag"].
Proof.
  destruct (C6_burst_sends_last_only
              (Suggest.initial false "")
              [("d", 50); ("dr", 120); ("dra", 199)] "drag" 200) as [_ H].
  - repeat constructor; simpl; try discriminate; unfold debounce_wait; lia.
  - discriminate.
  - unfold debounce_wait. lia.
  - rewrite H. reflexivity.
Defined.

(** ** C7: clearing the query *)

Lemma elapse_without_timer (s : Suggest.State) (ms : nat) :
  Suggest.pending s = None ->
  Suggest.requests (Suggest.elapse ms s) = Suggest.requests s.
Proof.
  intros H. unfold Suggest.elapse. simpl. now rewrite H.
Qed.

(** C7.  A change of the input to the empty text sends no request: it
    cancels the pending timer, so that no request follows later either, it
    clears the stored results, and the presentation mode is Suggesting. *)
Theorem C7_empty_query_is_local (s : Suggest.State) (event : ChangeArg) :
  changed_value event = "" ->
  let s' := Suggest.step s (Suggest.Change event) in
  Suggest.requests s' = Suggest.requests s
  /\ Suggest.pending s' = None
  /\ Suggest.results s' = None
  /\ Suggest.mode s' = Suggest.Suggesting
  /\ Suggest.value s' = ""
  /\ (forall ms, Suggest.requests (Suggest.step s' (Suggest.Elapse ms))
                 = Suggest.requests s).
Proof.
  intros Hv s'.
  assert (Hh : Suggest.handle (Suggest.Change event) s
               = Suggest.search_cancel
                   (Suggest.setResults None (Suggest.setValue "" s))).
  { simpl. unfold Suggest.handleChange. now rewrite Hv. }
  assert (Hpending : Suggest.pending s' = None).
  { subst s'. unfold Suggest.step. now rewrite effects_pending, Hh. }
  assert (Hrequests : Suggest.requests s' = Suggest.requests s).
  { subst s'. unfold Suggest.step. now rewrite effects_requests, Hh. }
  split; [exact Hrequests |].
  split; [exact Hpending |].
  split; [subst s'; unfold Suggest.step; now rewrite effects_results, Hh |].
  split; [subst s'; unfold Suggest.step; now rewrite effects_mode, Hh |].
  split; [subst s'; unfold Suggest.step; now rewrite effects_value, Hh |].
  intros ms. rewrite step_elapse, elapse_without_timer; assumption.
Qed.

(** C7 at the sample session with a pending timer. *)
Lemma C7_empty_query_is_local_witness :
  let s' := Suggest.step Sample.typing (Suggest.Change (FormEvent "")) in
  Suggest.pending Sample.typing = Some ("a", 0)
  /\ Suggest.pending s' = None
  /\ Suggest.requests (Suggest.step s' (Suggest.Elapse 200)) = [].
Proof.
  destruct (C7_empty_query_is_local Sample.typing (FormEvent ""))
    as [_ [Hp [_ [_ [_ Hlater]]]]].
  - reflexivity.
  - cbv zeta.
    split; [vm_compute; reflexivity |].
    split; [exact Hp |].
    rewrite Hlater. vm_compute. reflexivity.
Defined.

(** ** C8: a failed search *)

(** In [Search.tsx] the failure of the second request of the sample
    session leaves the three results of the first on display: the failure is
    not stored as zero results there. *)
Lemma C8_failure_keeps_results_in_Search_tsx :
  let p' := Plain.step Sample.plain_showing (Plain.Reject 1 "NetworkError") in
  Plain.in_flight 1 Sample.plain_showing = true
  /\ Plain.results p' = Sample.three_hits
  /\ List.length (Plain.indexedResults p') = 3%nat
  /\ ~ failure_is_zero_results.
Proof.
  cbv zeta.
  split; [reflexivity |].
  split; [reflexivity |].
  split; [reflexivity |].
  intros [_ H].
  specialize (H Sample.plain_showing 1%nat "NetworkError" eq_refl).
  vm_compute in H. discriminate H.
Qed.

(** C8, as the code has it.  In the component with presentation modes, when
    the search request fails the stored results become the empty array, so
    the presentation mode is Empty and the suggestions are the active list;
    the error is written to the console; no exception leaves the callback;
    the overlay stays as open as it was with the text it had, and it still
    takes input and still closes.  In [Search.tsx], which has no
    presentation modes, the failure is written to the console and nothing
    else changes: the stored results, the cursor, the text and the open
    state stay, and no exception leaves the callback. *)
Theorem C8_failed_search_by_component
        (s : Suggest.State) (p : Plain.State) (id : nat) (error : string) :
  (Suggest.in_flight id s = true ->
   let s' := Suggest.step s (Suggest.Reject id error) in
   Suggest.results s' = Some []
   /\ Suggest.mode s' = Suggest.Empty
   /\ Suggest.activeList s' = Suggest.suggestedResults s'
   /\ Suggest.console s' = Suggest.console s ++ [error]
   /\ Suggest.uncaught s' = Suggest.uncaught s
   /\ Suggest.location s' = Suggest.location s
   /\ Suggest.isOpen s' = Suggest.isOpen s
   /\ Suggest.value s' = Suggest.value s
   /\ (forall v, v <> "" ->
         Suggest.pending (Suggest.step s' (Suggest.Change (FormEvent v)))
         = Some (v, Suggest.now s'))
   /\ (Suggest.isOpen s' = true ->
       Suggest.isOpen (Suggest.step s' (Suggest.press "Escape")) = false))
  /\ (Plain.in_flight id p = true ->
      let p' := Plain.step p (Plain.Reject id error) in
      Plain.results p' = Plain.results p
      /\ Plain.index p' = Plain.index p
      /\ Plain.console p' = Plain.console p ++ [error]
      /\ Plain.uncaught p' = Plain.uncaught p
      /\ Plain.location p' = Plain.location p
      /\ Plain.open p' = Plain.open p
      /\ Plain.value p' = Plain.value p).
Proof.
  split.
  - intros Hin s'.
    assert (Hh : Suggest.handle (Suggest.Reject id error) s
                 = Suggest.on_error error (Suggest.settle id s)).
    { cbn [Suggest.handle]. now rewrite Hin. }
    assert (Hres : Suggest.results s' = Some []).
    { subst s'. unfold Suggest.step. now rewrite effects_results, Hh. }
    split; [exact Hres |].
    split; [subst s'; unfold Suggest.step; now rewrite effects_mode, Hh |].
    split; [unfold Suggest.activeList, Suggest.isSuggesting; now rewrite Hres |].
    split; [subst s'; unfold Suggest.step; now rewrite effects_console, Hh |].
    split; [subst s'; unfold Suggest.step; now rewrite effects_uncaught, Hh |].
    split; [subst s'; unfold Suggest.step; now rewrite effects_location, Hh |].
    split; [subst s'; unfold Suggest.step; now rewrite effects_isOpen, Hh |].
    split; [subst s'; unfold Suggest.step; now rewrite effects_value, Hh |].
    split.
    + intros v Hv. now rewrite step_change_nonempty.
    + intros Hopen.
      assert (Hc : closes (Suggest.press "Escape")).
      { left. exists (mkKey "Escape" false false false), Body. now split. }
      now rewrite (close_step s' _ Hopen Hc).
  - intros Hin p'. subst p'. cbn [Plain.step]. rewrite Hin.
    now repeat split.
Qed.

(** C8 at the sample session with one request in flight, and at the sample
    session of [Search.tsx] that shows three results while a second request
    is in flight. *)
Lemma C8_failed_search_by_component_witness :
  let s' := Suggest.step Sample.waiting (Suggest.Reject 0 "NetworkError") in
  let p' := Plain.step Sample.plain_showing (Plain.Reject 1 "NetworkError") in
  (Suggest.mode s' = Suggest.Empty
   /\ Suggest.console s' = ["NetworkError"]
   /\ Suggest.uncaught s' = [])
  /\ (Plain.results p' = Sample.three_hits
      /\ Plain.console p' = ["NetworkError"]
      /\ Plain.uncaught p' = []).
Proof.
  cbv zeta. split.
  - destruct (proj1 (C8_failed_search_by_component
                       Sample.waiting Sample.plain_showing 0 "NetworkError")
                    eq_refl)
      as [_ [Hm [_ [Hc [Hu _]]]]].
    split; [exact Hm |].
    split; [rewrite Hc; vm_compute; reflexivity |].
    rewrite Hu. vm_compute. reflexivity.
  - destruct (proj2 (C8_failed_search_by_component
                       Sample.waiting Sample.plain_showing 1 "NetworkError")
                    eq_refl)
      as [Hr [_ [Hc [Hu _]]]].
    split; [rewrite Hr; vm_compute; reflexivity |].
    split; [rewrite Hc; vm_compute; reflexivity |].
    rewrite Hu. vm_compute. reflexivity.
Defined.

(** In [Search.tsx] the [catch] callback only writes to the console: the
    results on display stay as they were. *)
Lemma Plain_failed_search_only_logs
      (p : Plain.State) (id : nat) (error : string) :
  Plain.in_flight id p = true ->
  let p' := Plain.step p (Plain.Reject id error) in
  Plain.results p' = Plain.results p
  /\ Plain.console p' = Plain.console p ++ [error]
  /\ Plain.uncaught p' = Plain.uncaught p.
Proof.
  intros Hin p'. subst p'. simpl. rewrite Hin. now repeat split.
Qed.

(** ** C9: opening the overlay *)

Lemma word_key_nonempty (k : string) : is_word_key k = true -> k <> "".
Proof. destruct k; simpl; [discriminate | intros _; discriminate]. Qed.

(** C9 (as stated).  The slash key does not open the overlay: pressed on
    the freshly mounted component, with nothing focused, it leaves it
    closed. *)
Lemma C9_slash_does_not_open : ~ closed_opens_suggesting.
Proof.
  intros H.
  destruct (H (Suggest.initial false "") (Suggest.press "/") eq_refl) as [Ho _].
  - right. now left.
  - vm_compute in Ho. discriminate Ho.
Qed.

(** C9 (amended).  From the closed state, a focus event opens the overlay
    and changes nothing else; a key press of one word character (a letter, a
    digit or the underscore) without Meta, Ctrl or Alt, while nothing or the
    body is focused, opens the overlay, makes that character the query text
    and hands it to the debounced search.  Either way the stored results are
    kept, so the overlay opens in the mode they give: Suggesting when none
    are stored.  A slash key press changes nothing. *)
Theorem C9_closed_opens_on_focus_or_word_key (s : Suggest.State) :
  Suggest.isOpen s = false ->
  (let s' := Suggest.step s Suggest.Focus in
   Suggest.isOpen s' = true
   /\ Suggest.value s' = Suggest.value s
   /\ Suggest.pending s' = Suggest.pending s
   /\ Suggest.results s' = Suggest.results s
   /\ Suggest.mode s' = Suggest.mode s)
  /\ (forall event active,
         nothing_focused active = true ->
         opens_by_typing event = true ->
         let s' := Suggest.step s (Suggest.KeyDown event active) in
         Suggest.isOpen s' = true
         /\ Suggest.value s' = key event
         /\ Suggest.pending s' = Some (key event, Suggest.now s)
         /\ Suggest.results s' = Suggest.results s
         /\ Suggest.mode s' = Suggest.mode s)
  /\ (forall event active,
         key event = "/" -> Suggest.step s (Suggest.KeyDown event active) = s)
  /\ (Suggest.results s = None -> Suggest.mode s = Suggest.Suggesting).
Proof.
  intros Hclosed.
  split; [| split; [| split]].
  - cbv zeta. unfold Suggest.step.
    rewrite effects_isOpen, effects_value, effects_pending, effects_results,
      effects_mode.
    simpl. repeat split.
  - intros event active Hfocus Htype. cbv zeta.
    assert (Hkey : truthy (key event) = true).
    { apply truthy_nonempty, word_key_nonempty.
      unfold opens_by_typing in Htype.
      now destruct (is_word_key (key event)). }
    assert (Hh : Suggest.handle (Suggest.KeyDown event active) s
                 = Suggest.setOpen true
                     (Suggest.search (key event)
                        (Suggest.setValue (key event) s))).
    { simpl. unfold Suggest.handleKey, Suggest.handleChange.
      rewrite Hclosed, Hfocus, Htype. simpl. now rewrite Hkey. }
    unfold Suggest.step.
    rewrite effects_isOpen, effects_value, effects_pending, effects_results,
      effects_mode, Hh.
    simpl. repeat split.
  - intros event active Hkey.
    unfold Suggest.step.
    assert (Hh : Suggest.handle (Suggest.KeyDown event active) s = s).
    { simpl. unfold Suggest.handleKey, opens_by_typing.
      rewrite Hclosed, Hkey. simpl. now destruct (nothing_focused active). }
    rewrite Hh. now apply effects_idle.
  - intros Hres. unfold Suggest.mode, Suggest.isEmpty, Suggest.isSuggesting.
    now rewrite Hres.
Qed.

(** C9 (amended) at the freshly mounted component of the Motion site. *)
Lemma C9_closed_opens_on_focus_or_word_key_witness :
  let s := Suggest.initial true "MotionValue | Framer API" in
  Suggest.isOpen (Suggest.step s Suggest.Focus) = true
  /\ Suggest.value (Suggest.step s (Suggest.press "d")) = "d"
  /\ Suggest.mode s = Suggest.Suggesting.
Proof.
  cbv zeta.
  destruct (C9_closed_opens_on_focus_or_word_key
              (Suggest.initial true "MotionValue | Framer API"))
    as [[Ho _] [Htype [_ Hmode]]].
  - reflexivity.
  - split; [exact Ho |].
    split.
    + destruct (Htype (mkKey "d" false false false) Body) as [_ [Hv _]].
      * reflexivity.
      * reflexivity.
      * exact Hv.
    + apply Hmode. reflexivity.
Defined.

(** The static prototype is the variant that binds the slash key; it opens
    the overlay whatever is focused, and typing a character elsewhere does
    not reach the input. *)
Lemma Mock_slash_opens (s : Mock.State) (event : KeyboardEvent) :
  key event = "/" -> Mock.open (Mock.handleKey event s) = true.
Proof.
  intros Hkey. unfold Mock.handleKey. now rewrite Hkey.
Qed.

(** ** C10: the selection cursor *)

Lemma run_on_empty (ops : list Cursor.Op) : Cursor.run 0 ops 0 = 0%Z.
Proof.
  unfold Cursor.run.
  induction ops as [| op ops IH]; simpl.
  - reflexivity.
  - destruct op; simpl; exact IH.
Qed.

Lemma nonempty_size_positive {A : Type} (items : list A) :
  items <> [] -> (0 < Cursor.size items)%Z.
Proof.
  unfold Cursor.size. destruct items; [congruence | cbn [List.length]; lia].
Qed.

(** C10.  The cursor is clamped and does not wrap.  Over a list of length
    [N > 0], [next] moves to [min (index + 1) (N - 1)], so ten [next] over a
    list of five, from 0, end at 4; [previous] moves to [max (index - 1) 0].
    Over the empty list a cursor that starts at 0 stays at 0 under any
    sequence of [next], [previous], [set] and [reset], all of which are
    total.  ArrowDown and ArrowUp in the open overlay apply [next] and
    [previous] to the cursor of the suggestions while [isSuggesting] holds
    and to the cursor of the results otherwise, and leave the other cursor
    alone; over a result list that is not empty, ArrowDown moves to
    [min (index + 1) (N - 1)]. *)
Theorem C10_cursor_is_clamped :
  (forall N index, (0 < N)%Z ->
      Cursor.next N index = Z.min (index + 1) (N - 1))
  /\ Cursor.run 5 (repeat Cursor.OpNext 10) 0 = 4%Z
  /\ (forall index, Cursor.previous index = Z.max (index - 1) 0)
  /\ (forall ops, Cursor.run 0 ops 0 = 0%Z)
  /\ (forall s event active,
         Suggest.isOpen s = true ->
         key event = "ArrowDown" ->
         let s' := Suggest.step s (Suggest.KeyDown event active) in
         if Suggest.isSuggesting s
         then Suggest.suggestedIndex s'
              = Z.min (Suggest.suggestedIndex s + 1)
                      (Cursor.size (Suggest.suggestedResults s) - 1)
              /\ Suggest.resultIndex s' = Suggest.resultIndex s
         else Suggest.resultIndex s'
              = Cursor.next (Cursor.size (Suggest.indexedResults s))
                            (Suggest.resultIndex s)
              /\ (Suggest.indexedResults s <> [] ->
                  Suggest.resultIndex s'
                  = Z.min (Suggest.resultIndex s + 1)
                          (Cursor.size (Suggest.indexedResults s) - 1))
              /\ Suggest.suggestedIndex s' = Suggest.suggestedIndex s)
  /\ (forall s event active,
         Suggest.isOpen s = true ->
         key event = "ArrowUp" ->
         let s' := Suggest.step s (Suggest.KeyDown event active) in
         if Suggest.isSuggesting s
         then Suggest.suggestedIndex s' = Z.max (Suggest.suggestedIndex s - 1) 0
              /\ Suggest.resultIndex s' = Suggest.resultIndex s
         else Suggest.resultIndex s' = Z.max (Suggest.resultIndex s - 1) 0
              /\ Suggest.suggestedIndex s' = Suggest.suggestedIndex s).
Proof.
  split; [| split; [| split; [| split; [| split]]]].
  - intros N index HN. unfold Cursor.next.
    destruct (Z.ltb_spec 0 N); [reflexivity | lia].
  - reflexivity.
  - reflexivity.
  - apply run_on_empty.
  - intros s event active Hopen Hkey. cbv zeta.
    unfold Suggest.step.
    destruct (Suggest.isSuggesting s) eqn:Hsug.
    + assert (Hh : Suggest.handle (Suggest.KeyDown event active) s
                   = Suggest.nextSuggestedResult s).
      { simpl. unfold Suggest.handleKey. now rewrite Hopen, Hkey, Hsug. }
      rewrite Hh, effects_idle; [| reflexivity | reflexivity].
      simpl. rewrite suggestedResults_size. now split.
    + assert (Hh : Suggest.handle (Suggest.KeyDown event active) s
                   = Suggest.nextResult s).
      { simpl. unfold Suggest.handleKey. now rewrite Hopen, Hkey, Hsug. }
      rewrite Hh, effects_idle; [| reflexivity | reflexivity].
      simpl. split; [reflexivity |]. split; [| reflexivity].
      intros Hne. unfold Cursor.next.
      pose proof (nonempty_size_positive _ Hne) as Hpos.
      destruct (Z.ltb_spec 0 (Cursor.size (Suggest.indexedResults s)));
        [reflexivity | lia].
  - intros s event active Hopen Hkey. cbv zeta.
    unfold Suggest.step.
    destruct (Suggest.isSuggesting s) eqn:Hsug.
    + assert (Hh : Suggest.handle (Suggest.KeyDown event active) s
                   = Suggest.previousSuggestedResult s).
      { simpl. unfold Suggest.handleKey. now rewrite Hopen, Hkey, Hsug. }
      rewrite Hh, effects_idle; [| reflexivity | reflexivity].
      now split.
    + assert (Hh : Suggest.handle (Suggest.KeyDown event active) s
                   = Suggest.previousResult s).
      { simpl. unfold Suggest.handleKey. now rewrite Hopen, Hkey, Hsug. }
      rewrite Hh, effects_idle; [| reflexivity | reflexivity].
      now split.
Qed.

(** C10 at a list of five and at the sample session with the cursor on the
    last of three results. *)
Lemma C10_cursor_is_clamped_witness :
  Cursor.next 5 4 = 4%Z
  /\ Suggest.resultIndex Sample.at_last_result = 2%Z
  /\ Suggest.resultIndex
       (Suggest.step Sample.at_last_result (Suggest.press "ArrowDown"))
     = 2%Z.
Proof.
  destruct C10_cursor_is_clamped as [Hnext [_ [_ [_ [Hdown _]]]]].
  split; [rewrite (Hnext 5%Z 4%Z); [reflexivity | lia] |].
  split; [vm_compute; reflexivity |].
  specialize (Hdown Sample.at_last_result
                    (mkKey "ArrowDown" false false false) Body
                    eq_refl eq_refl).
  cbv zeta in Hdown.
  change (Suggest.isSuggesting Sample.at_last_result) with false in Hdown.
  destruct Hdown as [_ [Hdown _]].
  unfold Suggest.press. rewrite Hdown by (vm_compute; discriminate).
  vm_compute. reflexivity.
Defined.

(** In [Search.tsx], Enter with no result selected navigates nowhere, but
    not quietly: the handler reads [href] of [undefined]. *)
Lemma Plain_enter_without_results
      (p : Plain.State) (event : KeyboardEvent) (active : ActiveElement) :
  Plain.open p = true ->
  Plain.results p = [] ->
  key event = "Enter" ->
  let p' := Plain.step p (Plain.KeyDown event active) in
  Plain.location p' = Plain.location p
  /\ Plain.uncaught p' = Plain.uncaught p ++ ["TypeError"].
Proof.
  intros Hopen Hres Hkey p'. subst p'. simpl.
  unfold Plain.handleKey, Plain.selectedResult, Plain.indexedResults,
    Plain.categorisedResults.
  rewrite Hopen, Hkey, Hres. simpl.
  unfold Cursor.item.
  destruct (Plain.index p <? 0)%Z; simpl.
  - now split.
  - destruct (Z.to_nat (Plain.index p)); simpl; now split.
Qed.


(** * Further properties of the code *)

(** ** [getPage] *)

Lemma after_last_bar_cons (c : ascii) (s : string) :
  after_last_bar (String c s)
  = match after_last_bar s with
    | Some p => Some p
    | None =>
        if prefix " | " (String c s)
        then Some (substring 3 (String.length (String c s) - 3) (String c s))
        else None
    end.
Proof. reflexivity. Qed.

Lemma after_last_bar_tail (c : ascii) (s : string) :
  after_last_bar (String c s) = None -> after_last_bar s = None.
Proof.
  rewrite after_last_bar_cons.
  destruct (after_last_bar s); [discriminate | reflexivity].
Qed.

Lemma substring_all (s : string) : substring 0 (String.length s) s = s.
Proof.
  induction s as [| c s IH]; cbn [substring String.length];
    [reflexivity | now rewrite IH].
Qed.

Lemma prefix_cons (a b : ascii) (s1 s2 : string) :
  prefix (String a s1) (String b s2)
  = if ascii_dec a b then prefix s1 s2 else false.
Proof. reflexivity. Qed.

Lemma prefix_bar_split (s : string) :
  prefix " | " s = true -> exists p, s = (" | " ++ p)%string.
Proof.
  intros H.
  destruct s as [| c1 s]; [discriminate |].
  rewrite prefix_cons in H.
  destruct (ascii_dec " " c1) as [<- |]; [| discriminate].
  destruct s as [| c2 s]; [discriminate |].
  rewrite prefix_cons in H.
  destruct (ascii_dec "|" c2) as [<- |]; [| discriminate].
  destruct s as [| c3 s]; [discriminate |].
  rewrite prefix_cons in H.
  destruct (ascii_dec " " c3) as [<- |]; [| discriminate].
  now exists s.
Qed.

Lemma prefix_bar_intro (p : string) :
  prefix " | " (String " " (String "|" (String " " p))) = true.
Proof.
  rewrite !prefix_cons.
  destruct (ascii_dec " " " "); [| congruence].
  destruct (ascii_dec "|" "|"); [| congruence].
  now destruct p.
Qed.

Lemma includes_bar_cons (c : ascii) (s : string) :
  includes_bar (String c s) = (Ascii.eqb c "|" || includes_bar s)%bool.
Proof.
  unfold includes_bar. cbn [index]. rewrite prefix_cons.
  destruct (ascii_dec "|" c) as [<- | Hne].
  - now destruct s.
  - assert (Hc : Ascii.eqb c "|" = false).
    { apply Ascii.eqb_neq. congruence. }
    rewrite Hc. cbn [orb].
    now destruct (index 0 "|" s).
Qed.

Lemma includes_bar_app (a b : string) :
  includes_bar (a ++ b) = (includes_bar a || includes_bar b)%bool.
Proof.
  induction a as [| c a IH]; cbn [append].
  - reflexivity.
  - rewrite !includes_bar_cons, IH. now rewrite orb_assoc.
Qed.

(** A string that starts with a space and goes on without a bar does not
    start with the separator. *)
Lemma no_separator_at_space (s : string) :
  includes_bar s = false -> prefix " | " (String " " s) = false.
Proof.
  intros Hs. rewrite prefix_cons.
  destruct (ascii_dec " " " "); [| reflexivity].
  destruct s as [| c s]; [reflexivity |].
  rewrite includes_bar_cons in Hs.
  apply orb_false_iff in Hs. destruct Hs as [Hc _].
  rewrite prefix_cons.
  destruct (ascii_dec "|" c) as [<- |]; [discriminate | reflexivity].
Qed.

Lemma no_bar_no_separator (s : string) :
  includes_bar s = false -> after_last_bar s = None.
Proof.
  induction s as [| c s IH]; intros H.
  - reflexivity.
  - rewrite includes_bar_cons in H.
    apply orb_false_iff in H. destruct H as [Hc Hs].
    rewrite after_last_bar_cons, (IH Hs).
    destruct (ascii_dec " " c) as [<- | Hne].
    + now rewrite (no_separator_at_space s Hs).
    + rewrite prefix_cons.
      destruct (ascii_dec " " c); [contradiction | reflexivity].
Qed.

Lemma after_last_bar_found (a p : string) :
  after_last_bar (" | " ++ p) = Some p ->
  after_last_bar (a ++ " | " ++ p) = Some p.
Proof.
  intros H. induction a as [| c a IH]; [exact H |].
  cbn [append]. rewrite after_last_bar_cons.
  cbn [append] in IH. now rewrite IH.
Qed.

Lemma after_last_bar_at_separator (p : string) :
  includes_bar p = false -> after_last_bar (" | " ++ p) = Some p.
Proof.
  intros Hp.
  change (" | " ++ p)%string with (String " " (String "|" (String " " p))).
  rewrite after_last_bar_cons.
  assert (Hspace : after_last_bar (String " " p) = None).
  { rewrite after_last_bar_cons, (no_bar_no_separator p Hp).
    now rewrite (no_separator_at_space p Hp). }
  assert (Hbar : after_last_bar (String "|" (String " " p)) = None).
  { rewrite after_last_bar_cons, Hspace. reflexivity. }
  rewrite Hbar.
  rewrite (prefix_bar_intro p).
  cbn [String.length Nat.sub substring].
  now rewrite Nat.sub_0_r, substring_all.
Qed.

(** The page is given back from a title of one line that ends in a
    separator and a page name without a bar. *)
Theorem getPage_of_title (a p : string) :
  one_line (a ++ " | " ++ p) ->
  includes_bar p = false ->
  getPage (a ++ " | " ++ p) = Some p.
Proof.
  intros Hline Hp. unfold getPage.
  rewrite includes_bar_app, includes_bar_app.
  replace (includes_bar " | ") with true by reflexivity.
  rewrite orb_true_r. unfold one_line in Hline. rewrite Hline.
  cbn [first_capture].
  now rewrite (after_last_bar_found a p (after_last_bar_at_separator p Hp)).
Qed.

(** [getPage_of_title] at a title of the site. *)
Lemma getPage_of_title_witness :
  getPage "Framer API | MotionValue" = Some "MotionValue".
Proof.
  apply (getPage_of_title "Framer API" "MotionValue"); reflexivity.
Defined.

Lemma append_assoc_bar (a p : string) :
  ((a ++ " | ") ++ p)%string = (a ++ " | " ++ p)%string.
Proof.
  induction a as [| c a IH]; cbn [append]; [reflexivity | now rewrite IH].
Qed.

Lemma after_last_bar_sound (s p : string) :
  after_last_bar s = Some p ->
  (exists a, s = (a ++ " | " ++ p)%string) /\ after_last_bar p = None.
Proof.
  revert p. induction s as [| c s IH]; intros p H; [discriminate |].
  rewrite after_last_bar_cons in H.
  destruct (after_last_bar s) as [q |] eqn:Hs.
  - injection H as <-.
    destruct (IH q eq_refl) as [[a Ha] Hq].
    split; [| exact Hq].
    exists (String c a). cbn [append]. now rewrite Ha.
  - destruct (prefix " | " (String c s)) eqn:Hpre; [| discriminate].
    destruct (prefix_bar_split _ Hpre) as [q Hq].
    rewrite Hq in H.
    change (" | " ++ q)%string with (String " " (String "|" (String " " q))) in H.
    cbn [String.length Nat.sub substring] in H.
    rewrite Nat.sub_0_r, substring_all in H. injection H as <-.
    split.
    + exists "". exact Hq.
    + change (" | " ++ q)%string
        with (String " " (String "|" (String " " q))) in Hq.
      injection Hq as _ ->.
      apply after_last_bar_tail in Hs. now apply after_last_bar_tail in Hs.
Qed.

(** *** Lines *)

Lemma lines_nonempty (s : string) : lines s <> [].
Proof.
  destruct s as [| c s]; cbn [lines]; [discriminate |].
  destruct (is_newline c); [discriminate |].
  destruct (starts_wide_terminator (String c s)); discriminate.
Qed.

Lemma lines_cons (c : ascii) (s : string) :
  lines (String c s)
  = if is_newline c then EmptyString :: lines s
    else if starts_wide_terminator (String c s)
         then EmptyString :: drop2 (hd EmptyString (lines s)) :: tl (lines s)
         else String c (hd EmptyString (lines s)) :: tl (lines s).
Proof. reflexivity. Qed.

Lemma one_line_empty : one_line "".
Proof. reflexivity. Qed.

Lemma one_line_tail (c : ascii) (s : string) :
  one_line (String c s) -> one_line s.
Proof.
  unfold one_line. rewrite lines_cons.
  destruct (is_newline c); [discriminate |].
  destruct (starts_wide_terminator (String c s)); [discriminate |].
  pose proof (lines_nonempty s) as Hne.
  destruct (lines s) as [| l ls]; [congruence |].
  cbn [hd tl]. now intros [= -> ->].
Qed.

Lemma one_line_app (a b : string) : one_line (a ++ b) -> one_line b.
Proof.
  induction a as [| c a IH]; cbn [append]; [auto |].
  intros H. apply IH. now apply one_line_tail in H.
Qed.

Lemma one_line_drop2 (s : string) : one_line s -> one_line (drop2 s).
Proof.
  intros H. destruct s as [| c1 [| c2 s]]; cbn [drop2];
    try apply one_line_empty.
  now apply one_line_tail, one_line_tail in H.
Qed.

(** The first line of a string starts as the string does. *)
Lemma first_line_head (s : string) (c1 c2 : ascii) (r : string) :
  hd EmptyString (lines s) = String c1 (String c2 r) ->
  exists r', s = String c1 (String c2 r').
Proof.
  intros H. destruct s as [| x s]; [discriminate |].
  rewrite lines_cons in H.
  destruct (is_newline x); [discriminate |].
  destruct (starts_wide_terminator (String x s)); [discriminate |].
  cbn [hd] in H. injection H as -> H.
  destruct s as [| y s]; [discriminate |].
  rewrite lines_cons in H.
  destruct (is_newline y); [discriminate |].
  destruct (starts_wide_terminator (String y s)); [discriminate |].
  cbn [hd] in H. injection H as -> _.
  now exists s.
Qed.

Lemma starts_wide_terminator_head (c c1 c2 : ascii) (r r' : string) :
  starts_wide_terminator (String c (String c1 (String c2 r)))
  = starts_wide_terminator (String c (String c1 (String c2 r'))).
Proof. reflexivity. Qed.

(** Every line of a string is one line. *)
Lemma lines_one_line (s : string) :
  forall l, In l (lines s) -> one_line l.
Proof.
  induction s as [| c s IH]; intros l Hl.
  - destruct Hl as [<- | []]. apply one_line_empty.
  - rewrite lines_cons in Hl.
    pose proof (lines_nonempty s) as Hne.
    destruct (lines s) as [| l0 ls] eqn:E; [congruence |].
    cbn [hd tl] in Hl.
    destruct (is_newline c) eqn:Hnl.
    + destruct Hl as [<- | Hl]; [apply one_line_empty | now apply IH].
    + destruct (starts_wide_terminator (String c s)) eqn:Hwide.
      * destruct Hl as [<- | [<- | Hl]].
        -- apply one_line_empty.
        -- apply one_line_drop2, IH. now left.
        -- apply IH. now right.
      * destruct Hl as [<- | Hl]; [| apply IH; now right].
        assert (Hl0 : one_line l0) by (apply IH; now left).
        unfold one_line. rewrite lines_cons, Hnl.
        assert (Hw : starts_wide_terminator (String c l0) = false).
        { destruct l0 as [| c1 [| c2 r]]; try reflexivity.
          destruct (first_line_head s c1 c2 r) as [r' ->].
          - now rewrite E.
          - now rewrite (starts_wide_terminator_head c c1 c2 r r'). }
        rewrite Hw. unfold one_line in Hl0. now rewrite Hl0.
Qed.

Lemma first_capture_sound (ls : list string) (p : string) :
  first_capture ls = Some p ->
  exists l, In l ls /\ after_last_bar l = Some p.
Proof.
  induction ls as [| l ls IH]; cbn [first_capture]; [discriminate |].
  destruct (after_last_bar l) as [q |] eqn:E.
  - intros [= ->]. exists l. split; [now left | exact E].
  - intros H. destruct (IH H) as [l' [Hin Hl']].
    exists l'. split; [now right | exact Hl'].
Qed.

Lemma getPage_one_line (s : string) :
  one_line s -> after_last_bar s = None -> getPage s = None.
Proof.
  intros Hline Hnone. unfold getPage, one_line in *.
  rewrite Hline. cbn [first_capture]. rewrite Hnone.
  now destruct (includes_bar s).
Qed.

(** Whatever [getPage] finds is the rest of a line of the title after a
    separator, and holds neither a separator nor a line terminator, so that
    [getPage] finds nothing in it; in a title of one line it is the rest of
    the title.  A title without a bar has no page. *)
Theorem getPage_sound (title : string) :
  (forall p, getPage title = Some p ->
             (exists l a, In l (lines title) /\ l = (a ++ " | " ++ p)%string)
             /\ one_line p
             /\ getPage p = None)
  /\ (one_line title ->
      forall p, getPage title = Some p ->
                exists a, title = (a ++ " | " ++ p)%string)
  /\ (includes_bar title = false -> getPage title = None).
Proof.
  assert (Hmain : forall p, getPage title = Some p ->
            exists l a, In l (lines title) /\ l = (a ++ " | " ++ p)%string
                        /\ after_last_bar p = None).
  { intros p H. unfold getPage in H.
    destruct (includes_bar title); [| discriminate].
    destruct (first_capture_sound _ p H) as [l [Hin Hl]].
    destruct (after_last_bar_sound l p Hl) as [[a Ha] Hnone].
    now exists l, a. }
  split; [| split].
  - intros p H. destruct (Hmain p H) as [l [a [Hin [Hl Hnone]]]].
    assert (Hline : one_line p).
    { apply (one_line_app (a ++ " | ")).
      rewrite append_assoc_bar, <- Hl. now apply (lines_one_line title). }
    split; [now exists l, a |].
    split; [exact Hline | now apply getPage_one_line].
  - intros Hline p H. destruct (Hmain p H) as [l [a [Hin [Hl _]]]].
    unfold one_line in Hline. rewrite Hline in Hin.
    destruct Hin as [<- | []]. now exists a.
  - intros H. unfold getPage. now rewrite H.
Qed.

(** [getPage_sound] at a title with two separators, at titles with none,
    and at a title whose first line ends at U+2028. *)
Lemma getPage_sound_witness :
  getPage "Framer | Motion | Animation" = Some "Animation"
  /\ getPage "Animation" = None
  /\ getPage "Framer|Motion" = None
  /\ getPage ("a | b" ++ String (ascii_of_nat 226)
                          (String (ascii_of_nat 128)
                             (String (ascii_of_nat 168) "c | d")))
     = Some "b".
Proof.
  destruct (getPage_sound "Framer | Motion | Animation") as [H _].
  destruct (H "Animation" eq_refl) as [_ [_ Hnone]].
  split; [reflexivity |].
  split; [exact Hnone |].
  split; reflexivity.
Defined.
(** ** Looking results up in the categorised object *)

Section Lookup.

Context {V : Type}.

Lemma get_Own_In (k : string) (v : V) (o : JSObject V) :
  get k o = Own v -> In (k, v) o.
Proof.
  induction o as [| [k' v'] o IH]; cbn [get]; [discriminate |].
  destruct (String.eqb_spec k k') as [-> | Hne].
  - intros [= ->]. now left.
  - intros H. right. now apply IH.
Qed.

Lemma In_get (k : string) (v : V) (o : JSObject V) :
  NoDup (map fst o) -> In (k, v) o -> get k o = Own v.
Proof.
  induction o as [| [k' v'] o IH]; cbn [get map fst]; intros Hnd Hin.
  - destruct Hin.
  - inversion Hnd as [| ? ? Hfresh Hnd']; subst.
    destruct Hin as [[= -> ->] | Hin].
    + now rewrite String.eqb_refl.
    + destruct (String.eqb_spec k k') as [-> | Hne].
      * exfalso. apply Hfresh. apply in_map_iff. now exists (k', v).
      * now apply IH.
Qed.

Lemma get_FromPrototype (k : string) (o : JSObject V) :
  get k o = FromPrototype <-> ~ In k (map fst o).
Proof.
  induction o as [| [k' v'] o IH]; cbn [get map fst].
  - split; [intros _ [] | reflexivity].
  - destruct (String.eqb_spec k k') as [-> | Hne].
    + split; [discriminate | intros H; exfalso; apply H; now left].
    + rewrite IH. split.
      * intros H [Heq | Hin]; [congruence | contradiction].
      * intros H Hin. apply H. now right.
Qed.

(** A read does not depend on the order of the properties. *)
Lemma get_perm (k : string) (o o' : JSObject V) :
  NoDup (map fst o) -> Permutation o o' -> get k o = get k o'.
Proof.
  intros Hnd Hperm.
  assert (Hnd' : NoDup (map fst o')).
  { eapply Permutation_NoDup; [apply Permutation_map, Hperm | exact Hnd]. }
  destruct (get k o) as [v |] eqn:Hget.
  - symmetry. apply In_get; [exact Hnd' |].
    eapply Permutation_in; [exact Hperm |]. now apply get_Own_In.
  - symmetry. apply get_FromPrototype. apply get_FromPrototype in Hget.
    intros Hin. apply Hget.
    eapply Permutation_in; [apply Permutation_map; symmetry; exact Hperm |].
    exact Hin.
Qed.

Lemma get_map {W : Type} (g : V -> W) (k : string) (o : JSObject V) :
  get k (map (fun e => (fst e, g (snd e))) o)
  = match get k o with
    | Own v => Own (g v)
    | FromPrototype => FromPrototype
    end.
Proof.
  induction o as [| [k' v'] o IH]; cbn [get map fst snd]; [reflexivity |].
  now destruct (String.eqb k k').
Qed.

End Lookup.

Section GroupLookup.

Context {A : Type} (f : A -> string).

Lemma get_push_group (k k' : string) (a : A) (o : JSObject (list A)) :
  ~ In proto_name (map fst o) ->
  get k (push_group k' a o)
  = if String.eqb k k' && negb (String.eqb k proto_name)
    then Own (match get k o with Own vs => vs ++ [a] | FromPrototype => [a] end)
    else get k o.
Proof.
  induction o as [| [k0 vs] o IH]; cbn [push_group get map fst]; intros Hno.
  - destruct (String.eqb_spec k k') as [<- | Hne].
    + destruct (String.eqb k proto_name); cbn [get andb negb];
        [reflexivity | now rewrite String.eqb_refl].
    + cbn [andb].
      destruct (String.eqb k' proto_name); cbn [get]; [reflexivity |].
      destruct (String.eqb_spec k k'); [congruence | reflexivity].
  - assert (Hk0 : k0 <> proto_name) by (intros ->; apply Hno; now left).
    assert (Hno' : ~ In proto_name (map fst o))
      by (intros H; apply Hno; now right).
    destruct (String.eqb_spec k' k0) as [-> | Hne]; cbn [get].
    + destruct (String.eqb_spec k k0) as [-> | Hne'].
      * apply String.eqb_neq in Hk0. now rewrite Hk0.
      * reflexivity.
    + rewrite (IH Hno').
      destruct (String.eqb_spec k k0) as [-> | Hne'].
      * destruct (String.eqb_spec k0 k'); [congruence | reflexivity].
      * reflexivity.
Qed.

(** The array [groupBy] files under a key holds the elements with that
    key, in the order of the collection; there is no property for a key no
    element has, and none for the name of the prototype accessor. *)
Lemma get_groupBy (k : string) (l : list A) :
  get k (groupBy f l)
  = match filter (fun a => String.eqb (f a) k && negb (String.eqb k proto_name)) l with
    | [] => FromPrototype
    | vs => Own vs
    end.
Proof.
  induction l as [| a l IH] using rev_ind.
  - reflexivity.
  - rewrite groupBy_snoc, get_push_group by apply groupBy_no_proto.
    rewrite IH, filter_app.
    cbn [filter]. rewrite (String.eqb_sym (f a) k).
    destruct (String.eqb k (f a) && negb (String.eqb k proto_name)).
    + destruct (filter
                  (fun a0 => String.eqb (f a0) k && negb (String.eqb k proto_name))
                  l); reflexivity.
    + rewrite app_nil_r. reflexivity.
Qed.

End GroupLookup.

Lemma filter_filter_and {A : Type} (g h : A -> bool) (l : list A) :
  filter h (filter g l) = filter (fun a => g a && h a) l.
Proof.
  induction l as [| a l IH]; cbn [filter]; [reflexivity |].
  destruct (g a); cbn [filter andb]; [| exact IH].
  destruct (h a); now rewrite IH.
Qed.

Lemma filter_ext_eq {A : Type} (g h : A -> bool) (l : list A) :
  (forall a, g a = h a) -> filter g l = filter h l.
Proof.
  intros H. induction l as [| a l IH]; cbn [filter]; [reflexivity |].
  now rewrite H, IH.
Qed.

Lemma lookup_bucket_eq (results : list SearchResult) (lib pg : string) :
  lookup_bucket (pageDividedResults results) lib pg
  = match filter (fun r => in_bucket lib pg r && kept r) results with
    | [] => FromPrototype
    | bucket => Own bucket
    end.
Proof.
  unfold lookup_bucket.
  rewrite pageDividedResults_eq, get_map.
  rewrite (get_perm lib _ (groupBy (fun r => library_name (library r)) results)).
  - rewrite get_groupBy.
    assert (Hsplit :
              filter (fun r => in_bucket lib pg r && kept r) results
              = filter (fun r => String.eqb (page r) pg
                                 && negb (String.eqb pg proto_name))
                       (filter (fun r => String.eqb (library_name (library r)) lib
                                         && negb (String.eqb lib proto_name))
                               results)).
    { rewrite filter_filter_and. apply filter_ext_eq. intros r.
      unfold in_bucket, kept.
      destruct (String.eqb_spec (library_name (library r)) lib) as [<- | Hl];
        cbn [andb]; [| reflexivity].
      rewrite library_name_not_proto. cbn [andb negb].
      destruct (String.eqb_spec (page r) pg) as [<- | Hp];
        cbn [andb]; reflexivity. }
    rewrite Hsplit.
    destruct (filter (fun r => String.eqb (library_name (library r)) lib
                               && negb (String.eqb lib proto_name)) results)
      as [| r rs] eqn:E.
    + reflexivity.
    + apply get_groupBy.
  - apply Object_entries_keys_NoDup, groupBy_NoDup.
  - apply Object_entries_perm.
Qed.

(** The array the categorised object owns under a library and a page holds
    exactly the results of that library and page, in the order they arrived
    in; there is no such own property when there is no such result, and
    none for the page [__proto__].  So every result whose page is not
    [__proto__] is found under its own library and page, and whatever is
    found under a library and a page is one of the results and carries that
    library and page. *)
Theorem categorised_lookup (results : list SearchResult) :
  (forall lib pg,
      lookup_bucket (pageDividedResults results) lib pg
      = match filter (fun r => in_bucket lib pg r && kept r) results with
        | [] => FromPrototype
        | bucket => Own bucket
        end)
  /\ (forall r, In r results ->
        page r <> proto_name ->
        exists bucket,
          lookup_bucket (pageDividedResults results)
                        (library_name (library r)) (page r) = Own bucket
          /\ In r bucket)
  /\ (forall lib pg bucket r,
        lookup_bucket (pageDividedResults results) lib pg = Own bucket ->
        In r bucket ->
        In r results /\ library_name (library r) = lib /\ page r = pg
        /\ pg <> proto_name)
  /\ (forall lib,
        lookup_bucket (pageDividedResults results) lib proto_name
        = FromPrototype).
Proof.
  split; [intros lib pg; apply lookup_bucket_eq |].
  split; [| split].
  - intros r Hin Hpage. rewrite lookup_bucket_eq.
    assert (Hr : In r (filter (fun x => in_bucket (library_name (library r))
                                                  (page r) x && kept x)
                              results)).
    { apply filter_In. split; [exact Hin |].
      unfold in_bucket, kept. rewrite !String.eqb_refl. cbn [andb].
      now apply negb_true_iff, String.eqb_neq. }
    destruct (filter (fun x => in_bucket (library_name (library r)) (page r) x
                               && kept x) results)
      as [| x xs]; [destruct Hr |].
    now exists (x :: xs).
  - intros lib pg bucket r Hlook Hin.
    rewrite lookup_bucket_eq in Hlook.
    destruct (filter (fun x => in_bucket lib pg x && kept x) results)
      as [| x xs] eqn:E; [discriminate |].
    injection Hlook as <-. rewrite <- E in Hin.
    apply filter_In in Hin. destruct Hin as [Hin Hb].
    apply andb_true_iff in Hb. destruct Hb as [Hb Hkept].
    unfold in_bucket in Hb. apply andb_true_iff in Hb.
    destruct Hb as [H1 H2].
    apply String.eqb_eq in H1. apply String.eqb_eq in H2.
    unfold kept in Hkept. apply negb_true_iff, String.eqb_neq in Hkept.
    repeat split; auto. congruence.
  - intros lib. rewrite lookup_bucket_eq.
    rewrite (filter_ext_eq _ (fun _ => false)).
    + now induction results.
    + intros r. unfold in_bucket, kept.
      destruct (String.eqb (page r) proto_name);
        [now rewrite andb_false_r | now rewrite andb_false_r].
Qed.

(** [categorised_lookup] at the six interleaved sample results: the result
    of the one-hit sample is among them and is found under its names. *)
Lemma categorised_lookup_witness :
  match Sample.one_hit with
  | [r] =>
      exists bucket,
        lookup_bucket (pageDividedResults Sample.mixed_hits)
                      (library_name (library r)) (page r) = Own bucket
        /\ In r bucket
  | _ => False
  end.
Proof.
  unfold Sample.one_hit. cbn [firstn Suggest.motionSuggestedResults].
  apply (proj1 (proj2 (categorised_lookup Sample.mixed_hits))).
  - vm_compute. tauto.
  - discriminate.
Defined.

(** ** The rendered list follows the cursor *)

Lemma same_object_refl (r : SearchResult) : same_object r r = true.
Proof.
  unfold same_object. destruct (SearchResult_eq_dec r r); congruence.
Qed.

Lemma same_object_eq (a b : SearchResult) : same_object a b = true <-> a = b.
Proof.
  unfold same_object. destruct (SearchResult_eq_dec a b); split; congruence.
Qed.

Lemma findIndex_from_skip (r : SearchResult) (pre rest : list SearchResult) :
  ~ In r pre ->
  forall i, findIndex_from i r (pre ++ rest)
            = findIndex_from (i + Z.of_nat (List.length pre)) r rest.
Proof.
  induction pre as [| x pre IH]; intros Hnotin i.
  - cbn [app List.length Z.of_nat]. now rewrite Z.add_0_r.
  - cbn [app findIndex_from].
    destruct (same_object x r) eqn:E.
    + apply same_object_eq in E. subst x. exfalso. apply Hnotin. now left.
    + rewrite IH by (intros H; apply Hnotin; now right).
      f_equal. cbn [List.length]. lia.
Qed.

Lemma findIndex_at (r : SearchResult) (pre suf : list SearchResult) :
  NoDup (pre ++ r :: suf) ->
  findIndex r (pre ++ r :: suf) = Z.of_nat (List.length pre).
Proof.
  intros Hnd. unfold findIndex.
  rewrite findIndex_from_skip.
  - cbn [findIndex_from]. now rewrite same_object_refl.
  - apply NoDup_remove_2 in Hnd. intros H. apply Hnd.
    apply in_or_app. now left.
Qed.

(** In a list without repetition, the entry at a position is the selected
    one exactly when the cursor is at that position. *)
Lemma active_at (l : list SearchResult) (k : nat) (r : SearchResult) (c : Z) :
  NoDup l ->
  nth_error l k = Some r ->
  match Cursor.item l c with
  | Some selected => same_object selected r
  | None => false
  end = (Z.of_nat k =? c)%Z.
Proof.
  intros Hnd Hk. unfold Cursor.item.
  destruct (Z.ltb_spec c 0) as [Hneg | Hpos].
  - symmetry. apply Z.eqb_neq. lia.
  - destruct (nth_error l (Z.to_nat c)) as [selected |] eqn:Hc.
    + destruct (Z.eqb_spec (Z.of_nat k) c) as [Heq | Hne].
      * subst c. rewrite Nat2Z.id in Hc.
        rewrite Hk in Hc. injection Hc as <-. apply same_object_refl.
      * destruct (same_object selected r) eqn:E; [| reflexivity].
        apply same_object_eq in E. subst selected. exfalso. apply Hne.
        assert (Hsame : Z.to_nat c = k).
        { apply (proj1 (NoDup_nth_error l) Hnd).
          - apply nth_error_Some. congruence.
          - congruence. }
        lia.
    + symmetry. apply Z.eqb_neq.
      apply nth_error_None in Hc.
      assert (k < List.length l)%nat by (apply nth_error_Some; congruence).
      lia.
Qed.

Lemma nth_error_middle {A : Type} (pre suf : list A) (a : A) :
  nth_error (pre ++ a :: suf) (List.length pre) = Some a.
Proof.
  induction pre as [| x pre IH]; [reflexivity | exact IH].
Qed.

(** The rows of a list without repetition, numbered by [findIndex]. *)
Lemma rows_by_findIndex (c : Z) (pre suf : list SearchResult) :
  NoDup (pre ++ suf) ->
  map (fun r => render_result (findIndex r (pre ++ suf)) r
                              (Cursor.item (pre ++ suf) c))
      suf
  = rows_from (Z.of_nat (List.length pre)) suf c.
Proof.
  revert pre. induction suf as [| r suf IH]; intros pre Hnd.
  - reflexivity.
  - unfold rows_from. cbn [map map_indexed_from]. f_equal.
    + unfold render_result. f_equal.
      * now apply findIndex_at.
      * apply active_at; [exact Hnd | apply nth_error_middle].
    + specialize (IH (pre ++ [r])).
      rewrite <- app_assoc in IH. cbn [app] in IH.
      rewrite IH by exact Hnd.
      unfold rows_from. f_equal. rewrite length_app. cbn [List.length]. lia.
Qed.

(** The rows of a list without repetition, numbered by position. *)
Lemma rows_by_position (c : Z) (pre suf : list SearchResult) :
  NoDup (pre ++ suf) ->
  map_indexed_from (Z.of_nat (List.length pre))
                   (fun index r => render_result index r
                                                 (Cursor.item (pre ++ suf) c))
                   suf
  = rows_from (Z.of_nat (List.length pre)) suf c.
Proof.
  revert pre. induction suf as [| r suf IH]; intros pre Hnd.
  - reflexivity.
  - unfold rows_from. cbn [map_indexed_from]. f_equal.
    + unfold render_result. f_equal.
      apply active_at; [exact Hnd | apply nth_error_middle].
    + specialize (IH (pre ++ [r])).
      rewrite <- app_assoc in IH. cbn [app] in IH.
      rewrite length_app in IH. cbn [List.length] in IH.
      replace (Z.of_nat (List.length pre + 1)) with (Z.of_nat (List.length pre) + 1)%Z
        in IH by lia.
      now apply IH.
Qed.

Lemma join_rows_all {X : Type} (g : X -> list Row) (L : list X) :
  join_rows (map (fun x => Some (g x)) L) = Some (List.concat (map g L)).
Proof.
  induction L as [| x L IH]; cbn [map join_rows List.concat].
  - reflexivity.
  - now rewrite IH.
Qed.

(** Every key of an object leads to its value, so no category of the
    rendered list is missing. *)
Lemma render_categories (indexed : list SearchResult)
      (selected : option SearchResult)
      (sectionResults : JSObject (list SearchResult)) :
  NoDup (map fst sectionResults) ->
  map (render_category indexed selected sectionResults)
      (Object_keys sectionResults)
  = map (fun e =>
           Some (map (fun result =>
                        render_result (findIndex result indexed) result selected)
                     (snd e)))
        (Object_entries sectionResults).
Proof.
  intros Hnd. unfold Object_keys. rewrite map_map.
  apply map_ext_in. intros [k v] Hin. cbn [fst snd].
  unfold render_category.
  rewrite (In_get k v sectionResults Hnd); [reflexivity |].
  eapply Permutation_in; [apply Object_entries_perm | exact Hin].
Qed.

Lemma render_sections_flatten (c : CategorisedResults)
      (indexed : list SearchResult) (selected : option SearchResult) :
  (forall section, In section c -> NoDup (map fst (snd section))) ->
  render_sections c indexed selected
  = Some (map (fun result =>
                 render_result (findIndex result indexed) result selected)
              (flattenSearchResults c)).
Proof.
  intros Hnd. unfold render_sections, flattenSearchResults, getDeepValues.
  unfold Object_values. rewrite map_map.
  rewrite (map_ext_in _
             (fun section =>
                Some (List.concat
                        (map (fun e =>
                                map (fun result =>
                                       render_result (findIndex result indexed)
                                                     result selected)
                                    (snd e))
                             (Object_entries (snd section)))))).
  - rewrite join_rows_all. f_equal.
    rewrite concat_map, map_map. f_equal.
    apply map_ext. intros section.
    now rewrite concat_map, map_map.
  - intros section Hin.
    rewrite render_categories.
    + apply join_rows_all.
    + apply Hnd.
      eapply Permutation_in; [apply Object_entries_perm | exact Hin].
Qed.

Lemma pageDividedResults_sections_NoDup (results : list SearchResult) :
  forall section,
    In section (pageDividedResults results) -> NoDup (map fst (snd section)).
Proof.
  intros section Hin.
  rewrite pageDividedResults_eq, in_map_iff in Hin.
  destruct Hin as [e [<- _]]. apply groupBy_NoDup.
Qed.

Lemma rendered_results (results : list SearchResult) (c : Z) :
  NoDup results ->
  let indexed := flattenSearchResults (pageDividedResults results) in
  render_sections (pageDividedResults results) indexed (Cursor.item indexed c)
  = Some (rows_from 0 indexed c).
Proof.
  intros Hnd indexed.
  rewrite render_sections_flatten
    by apply pageDividedResults_sections_NoDup.
  f_equal. fold indexed.
  apply (rows_by_findIndex c [] indexed).
  eapply Permutation_NoDup; [| apply NoDup_filter; exact Hnd].
  symmetry. apply flatten_perm.
Qed.

Lemma suggestedResults_NoDup (s : Suggest.State) :
  NoDup (Suggest.suggestedResults s).
Proof.
  unfold Suggest.suggestedResults.
  destruct (Suggest.motionSite s);
    repeat constructor; cbn [In]; intuition discriminate.
Qed.

(** When the results of a response are distinct, the rendered list shows
    the flattened results in their order, each with its position as
    [data-index], and marks as active the row under the cursor and no
    other; in particular no category is lost and none is rendered twice.
    The same holds for the suggestions, and for the list of [Search.tsx]. *)
Theorem rendered_list_follows_cursor :
  (forall s : Suggest.State,
      Suggest.isSuggesting s = true ->
      View.SearchResults s
      = Some (rows_from 0 (Suggest.suggestedResults s) (Suggest.suggestedIndex s)))
  /\ (forall (s : Suggest.State) (results : list SearchResult),
         Suggest.results s = Some results ->
         results <> [] ->
         NoDup results ->
         View.SearchResults s
         = Some (rows_from 0 (Suggest.indexedResults s) (Suggest.resultIndex s)))
  /\ (forall p : Plain.State,
         NoDup (Plain.results p) ->
         View.PlainSearchResults p
         = Some (rows_from 0 (Plain.indexedResults p) (Plain.index p))).
Proof.
  split; [| split].
  - intros s Hsug. unfold View.SearchResults. rewrite Hsug. f_equal.
    unfold SearchEmpty, Suggest.selectedSuggestedResult.
    apply (rows_by_position (Suggest.suggestedIndex s) []
                            (Suggest.suggestedResults s)).
    apply suggestedResults_NoDup.
  - intros s results Hres Hne Hnd.
    unfold View.SearchResults, Suggest.isSuggesting.
    rewrite Hres.
    destruct results as [| r rs]; [congruence |]. cbn [List.length Nat.eqb].
    unfold Suggest.selectedResult, Suggest.indexedResults,
      Suggest.categorisedResults.
    rewrite Hres.
    now apply (rendered_results (r :: rs)).
  - intros p Hnd.
    unfold View.PlainSearchResults, Plain.selectedResult, Plain.indexedResults,
      Plain.categorisedResults.
    now apply (rendered_results (Plain.results p)).
Qed.

(** [rendered_list_follows_cursor] at the sample session with the cursor on
    the last of three results. *)
Lemma rendered_list_follows_cursor_witness :
  option_map (map (fun row => (data_index row, title (row_result row), isActive row)))
             (View.SearchResults Sample.at_last_result)
  = Some [(0%Z, "animate", false); (1%Z, "drag", false); (2%Z, "Scroll", true)].
Proof.
  destruct rendered_list_follows_cursor as [_ [H _]].
  rewrite (H Sample.at_last_result Sample.three_hits).
  - vm_compute. reflexivity.
  - reflexivity.
  - discriminate.
  - repeat constructor; cbn [In]; intuition discriminate.
Defined.

(** ** The flag and the list *)

Lemma filter_nil_iff {A : Type} (g : A -> bool) (l : list A) :
  filter g l = [] <-> Forall (fun a => g a = false) l.
Proof.
  induction l as [| a l IH]; cbn [filter].
  - split; [constructor | reflexivity].
  - destruct (g a) eqn:E.
    + split; [discriminate |]. intros H. inversion H; congruence.
    + rewrite IH. split.
      * intros H. now constructor.
      * intros H. now inversion H.
Qed.

Lemma indexedResults_nil_iff (rs : list SearchResult) :
  flattenSearchResults (pageDividedResults rs) = []
  <-> Forall (fun r => page r = proto_name) rs.
Proof.
  rewrite <- length_zero_iff_nil, flatten_length, length_zero_iff_nil.
  rewrite filter_nil_iff.
  split; intros H; eapply Forall_impl; try exact H; intros r; unfold kept.
  - intros Hr. now apply negb_false_iff, String.eqb_eq in Hr.
  - intros Hr. now apply negb_false_iff, String.eqb_eq.
Qed.

(** The flag [isSuggesting] that the key handler branches on is computed
    from the stored response, and the list the keyboard then acts on from the
    categorised object.  While the flag holds, the flattened result list is
    empty.  The list the keyboard acts on is empty in one case only: the
    stored response has hits and every one of them has the page [__proto__],
    which the categorised object owns no property for. *)
Theorem active_list_empty_only_by_proto (s : Suggest.State) :
  (Suggest.isSuggesting s = true -> Suggest.indexedResults s = [])
  /\ (Suggest.activeList s = []
      <-> exists rs,
            Suggest.results s = Some rs
            /\ rs <> []
            /\ Forall (fun r => page r = proto_name) rs)
  /\ Suggest.activeList
       (Suggest.setResults (Some [Sample.proto_hit]) s) = [].
Proof.
  split; [| split].
  - unfold Suggest.isSuggesting, Suggest.indexedResults,
      Suggest.categorisedResults.
    destruct (Suggest.results s) as [rs |]; [| reflexivity].
    intros H. apply Nat.eqb_eq, length_zero_iff_nil in H. now subst rs.
  - unfold Suggest.activeList, Suggest.isSuggesting, Suggest.indexedResults,
      Suggest.categorisedResults.
    destruct (Suggest.results s) as [rs |].
    + destruct rs as [| r rs]; cbn [List.length Nat.eqb].
      * split.
        -- unfold Suggest.suggestedResults.
           destruct (Suggest.motionSite s); discriminate.
        -- intros [rs' [[= <-] [Hne _]]]. congruence.
      * rewrite indexedResults_nil_iff. split.
        -- intros H. exists (r :: rs). repeat split; [discriminate | exact H].
        -- intros [rs' [[= <-] [_ H]]]. exact H.
    + split.
      * unfold Suggest.suggestedResults.
        destruct (Suggest.motionSite s); discriminate.
      * intros [rs' [H _]]. discriminate.
  - now destruct s.
Qed.

(** ** What an event can do *)

Lemma search_filters_shape (s : Suggest.State) :
  exists rest,
    Suggest.search_filters s = site_filter s :: rest
    /\ (List.length rest <= 1)%nat.
Proof.
  unfold Suggest.search_filters, site_filter.
  destruct (getPage (Suggest.documentTitle s)) as [p |].
  - destruct (truthy p).
    + eexists. split; [reflexivity | cbn; lia].
    + exists []. split; [reflexivity | cbn; lia].
  - exists []. split; [reflexivity | cbn; lia].
Qed.

Lemma handle_environment (e : Suggest.Event) (s : Suggest.State) :
  Suggest.motionSite (Suggest.handle e s) = Suggest.motionSite s
  /\ Suggest.documentTitle (Suggest.handle e s) = Suggest.documentTitle s.
Proof.
  destruct e as [ev | | | ev active | ms | id hits | id err]; cbn [Suggest.handle].
  - unfold Suggest.handleChange.
    destruct (truthy (changed_value ev)); now split.
  - now split.
  - now split.
  - unfold Suggest.handleKey, Suggest.handleChange, Suggest.go_to.
    repeat match goal with
           | |- context [if ?b then _ else _] => destruct b
           | |- context [match ?o with Some _ => _ | None => _ end] => destruct o
           end; now split.
  - unfold Suggest.elapse. cbn.
    destruct (Suggest.pending s) as [[v t] |]; [| now split].
    destruct (t + debounce_wait <=? Suggest.now s + ms)%nat; now split.
  - destruct (Suggest.in_flight id s); now split.
  - destruct (Suggest.in_flight id s); now split.
Qed.

Lemma step_search_filters (s : Suggest.State) (e : Suggest.Event) :
  Suggest.search_filters (Suggest.step s e) = Suggest.search_filters s
  /\ site_filter (Suggest.step s e) = site_filter s.
Proof.
  unfold Suggest.search_filters, site_filter, Suggest.step.
  rewrite effects_motionSite, effects_documentTitle.
  destruct (handle_environment e s) as [-> ->]. now split.
Qed.

(** What the handler of an event does to the request log. *)
Lemma handle_requests (e : Suggest.Event) (s : Suggest.State) :
  Suggest.requests (Suggest.handle e s) = Suggest.requests s
  \/ exists ms v t,
      e = Suggest.Elapse ms
      /\ Suggest.pending s = Some (v, t)
      /\ (t + debounce_wait <= Suggest.now s + ms)%nat
      /\ Suggest.pending (Suggest.handle e s) = None
      /\ Suggest.requests (Suggest.handle e s)
         = Suggest.requests s ++ [mkRequest v 10 (Suggest.search_filters s)].
Proof.
  destruct e as [ev | | | ev active | ms | id hits | id err]; cbn [Suggest.handle].
  - left. unfold Suggest.handleChange.
    now destruct (truthy (changed_value ev)).
  - now left.
  - now left.
  - left. unfold Suggest.handleKey, Suggest.handleChange, Suggest.go_to.
    repeat match goal with
           | |- context [if ?b then _ else _] => destruct b
           | |- context [match ?o with Some _ => _ | None => _ end] => destruct o
           end; reflexivity.
  - unfold Suggest.elapse. cbn.
    destruct (Suggest.pending s) as [[v t] |] eqn:Hp; [| now left].
    destruct (Nat.leb_spec (t + debounce_wait) (Suggest.now s + ms)).
    + right. exists ms, v, t. now repeat split.
    + now left.
  - left. now destruct (Suggest.in_flight id s).
  - left. now destruct (Suggest.in_flight id s).
Qed.

(** An event sends at most one request, and only the passing of time sends
    one: when the wait of the pending timer has run out, the request is for
    the text the timer was started with.  No handler and no callback calls
    the search service itself. *)
Theorem step_sends_at_most_one (s : Suggest.State) (e : Suggest.Event) :
  Suggest.requests (Suggest.step s e) = Suggest.requests s
  \/ exists ms v t,
      e = Suggest.Elapse ms
      /\ Suggest.pending s = Some (v, t)
      /\ (t + debounce_wait <= Suggest.now s + ms)%nat
      /\ Suggest.pending (Suggest.step s e) = None
      /\ Suggest.requests (Suggest.step s e)
         = Suggest.requests s ++ [mkRequest v 10 (Suggest.search_filters s)].
Proof.
  unfold Suggest.step. rewrite effects_requests, effects_pending.
  apply handle_requests.
Qed.

(** In the open overlay a key touches neither the input nor the timer. *)
Lemma handleKey_open_frame
      (event : KeyboardEvent) (active : ActiveElement) (s : Suggest.State) :
  Suggest.isOpen s = true ->
  Suggest.pending (Suggest.handleKey event active s) = Suggest.pending s
  /\ Suggest.value (Suggest.handleKey event active s) = Suggest.value s
  /\ Suggest.now (Suggest.handleKey event active s) = Suggest.now s.
Proof.
  intros Hopen. unfold Suggest.handleKey, Suggest.go_to. rewrite Hopen.
  repeat match goal with
         | |- context [if ?b then _ else _] => destruct b
         | |- context [match ?o with Some _ => _ | None => _ end] => destruct o
         end; now repeat split.
Qed.

Lemma handle_timer (e : Suggest.Event) (s : Suggest.State) :
  timer_matches_input s -> timer_matches_input (Suggest.handle e s).
Proof.
  unfold timer_matches_input. intros H.
  destruct e as [ev | | | ev active | ms | id hits | id err]; cbn [Suggest.handle].
  - unfold Suggest.handleChange.
    destruct (truthy (changed_value ev)) eqn:Hv; cbn; [| exact I].
    repeat split; try (unfold debounce_wait; lia).
    intros Heq. rewrite Heq in Hv. discriminate Hv.
  - exact H.
  - exact H.
  - destruct (Suggest.isOpen s) eqn:Hopen.
    + destruct (handleKey_open_frame ev active s Hopen) as [-> [-> ->]].
      exact H.
    + unfold Suggest.handleKey, Suggest.handleChange. rewrite Hopen.
      destruct (nothing_focused active); [| exact H].
      destruct (opens_by_typing ev); [| exact H].
      cbn [changed_value].
      destruct (truthy (key ev)) eqn:Hv; cbn; [| exact I].
      repeat split; try (unfold debounce_wait; lia).
      intros Heq. rewrite Heq in Hv. discriminate Hv.
  - unfold Suggest.elapse. cbn.
    destruct (Suggest.pending s) as [[v t] |] eqn:Hp; cbn; [| now rewrite Hp].
    destruct (Nat.leb_spec (t + debounce_wait) (Suggest.now s + ms)); cbn.
    + exact I.
    + rewrite Hp. destruct H as [Hv [Hne [Ht _]]]. repeat split; auto; lia.
  - destruct (Suggest.in_flight id s); exact H.
  - destruct (Suggest.in_flight id s); exact H.
Qed.

Lemma step_timer (s : Suggest.State) (e : Suggest.Event) :
  timer_matches_input s -> timer_matches_input (Suggest.step s e).
Proof.
  intros H. apply (handle_timer e) in H.
  unfold timer_matches_input, Suggest.step in *.
  now rewrite effects_pending, effects_value, effects_now.
Qed.

Lemma step_well_formed (s : Suggest.State) (e : Suggest.Event) :
  timer_matches_input s ->
  Forall (well_formed_request s) (Suggest.requests s) ->
  Forall (well_formed_request (Suggest.step s e))
         (Suggest.requests (Suggest.step s e)).
Proof.
  intros Htimer Hall.
  assert (Hsame : forall r, well_formed_request s r ->
                            well_formed_request (Suggest.step s e) r).
  { intros r. unfold well_formed_request.
    destruct (step_search_filters s e) as [-> ->]. auto. }
  destruct (step_sends_at_most_one s e)
    as [-> | [ms [v [t [_ [Hp [_ [_ ->]]]]]]]].
  - eapply Forall_impl; [exact Hsame | exact Hall].
  - apply Forall_app. split.
    + eapply Forall_impl; [exact Hsame | exact Hall].
    + constructor; [| constructor]. apply Hsame.
      unfold timer_matches_input in Htimer. rewrite Hp in Htimer.
      destruct Htimer as [_ [Hne _]].
      unfold well_formed_request. cbn.
      repeat split; auto. apply search_filters_shape.
Qed.

Lemma reachable_invariant (s : Suggest.State) :
  reachable s ->
  timer_matches_input s /\ Forall (well_formed_request s) (Suggest.requests s).
Proof.
  intros [motion [title [events ->]]].
  induction events as [| e events IH] using rev_ind.
  - split; [exact I | constructor].
  - rewrite run_app. cbn [Suggest.run fold_left].
    destruct IH as [Htimer Hall].
    split; [now apply step_timer | now apply step_well_formed].
Qed.

(** Every request the component has sent asks for a non-empty query and
    ten hits, and filters by the library of the site first, with at most
    the page as a second filter. *)
Theorem requests_are_well_formed (s : Suggest.State) :
  reachable s -> Forall (well_formed_request s) (Suggest.requests s).
Proof. intros H. now apply reachable_invariant. Qed.

(** [requests_are_well_formed] at the sample session with two requests in
    flight. *)
Lemma requests_are_well_formed_witness :
  map query (Suggest.requests Sample.two_in_flight) = ["d"; "dr"]
  /\ Forall (well_formed_request Sample.two_in_flight)
            (Suggest.requests Sample.two_in_flight).
Proof.
  split; [reflexivity |].
  apply requests_are_well_formed.
  exists false, "".
  exists [Suggest.Focus; Suggest.Change (FormEvent "d"); Suggest.Elapse 200;
          Suggest.Change (FormEvent "dr"); Suggest.Elapse 200].
  reflexivity.
Defined.

(** When the passing of time sends a request, its query is the text that
    is in the input at that moment, and that text is not empty. *)
Theorem sent_query_is_the_input (s : Suggest.State) (ms : nat) :
  reachable s ->
  Suggest.requests (Suggest.step s (Suggest.Elapse ms)) = Suggest.requests s
  \/ (Suggest.value s <> ""
      /\ Suggest.requests (Suggest.step s (Suggest.Elapse ms))
         = Suggest.requests s
             ++ [mkRequest (Suggest.value s) 10 (Suggest.search_filters s)]).
Proof.
  intros Hreach.
  destruct (reachable_invariant s Hreach) as [Htimer _].
  destruct (step_sends_at_most_one s (Suggest.Elapse ms))
    as [H | [ms' [v [t [_ [Hp [_ [_ H]]]]]]]]; [now left |].
  right. unfold timer_matches_input in Htimer. rewrite Hp in Htimer.
  destruct Htimer as [Hv [Hne _]]. subst v. now split.
Qed.

(** [sent_query_is_the_input] at the sample session in which a query is
    being typed. *)
Lemma sent_query_is_the_input_witness :
  Suggest.value Sample.typing = "a"
  /\ map query (Suggest.requests (Suggest.step Sample.typing (Suggest.Elapse 200)))
     = ["a"].
Proof.
  split; [reflexivity |].
  destruct (sent_query_is_the_input Sample.typing 200) as [H | [_ H]].
  - exists false, "".
    exists [Suggest.Focus; Suggest.Change (FormEvent "a")]. reflexivity.
  - vm_compute in H. discriminate H.
  - rewrite H. reflexivity.
Defined.

Lemma item_In {A : Type} (items : list A) (index : Z) (a : A) :
  Cursor.item items index = Some a -> In a items.
Proof.
  unfold Cursor.item. destruct (index <? 0)%Z; [discriminate |].
  apply nth_error_In.
Qed.

(** The page is left only by Enter in the open overlay, and then for the
    target of an entry of the list the keyboard acts on; no other event
    assigns the location. *)
Theorem navigates_only_on_enter (s : Suggest.State) (e : Suggest.Event) :
  Suggest.location (Suggest.step s e) = Suggest.location s
  \/ exists event active r,
      e = Suggest.KeyDown event active
      /\ key event = "Enter"
      /\ Suggest.isOpen s = true
      /\ In r (Suggest.activeList s)
      /\ Suggest.location (Suggest.step s e) = Suggest.location s ++ [href r].
Proof.
  unfold Suggest.step. rewrite effects_location.
  destruct e as [ev | | | ev active | ms | id hits | id err]; cbn [Suggest.handle].
  - left. unfold Suggest.handleChange.
    now destruct (truthy (changed_value ev)).
  - now left.
  - now left.
  - unfold Suggest.handleKey.
    destruct (Suggest.isOpen s) eqn:Hopen.
    + destruct (String.eqb (key ev) "ArrowUp");
        [left; now destruct (Suggest.isSuggesting s) |].
      destruct (String.eqb (key ev) "ArrowDown");
        [left; now destruct (Suggest.isSuggesting s) |].
      destruct (String.eqb (key ev) "Escape"); [now left |].
      destruct (String.eqb_spec (key ev) "Enter") as [Hkey |]; [| now left].
      unfold Suggest.activeList.
      destruct (Suggest.isSuggesting s).
      * destruct (Suggest.selectedSuggestedResult s) as [r |] eqn:Hsel;
          [| now left].
        right. exists ev, active, r. repeat split; auto.
        now apply item_In with (index := Suggest.suggestedIndex s).
      * destruct (Suggest.selectedResult s) as [r |] eqn:Hsel; [| now left].
        right. exists ev, active, r. repeat split; auto.
        now apply item_In with (index := Suggest.resultIndex s).
    + left. unfold Suggest.handleChange.
      destruct (nothing_focused active); [| reflexivity].
      destruct (opens_by_typing ev); [| reflexivity].
      now destruct (truthy (changed_value (Typed (key ev)))).
  - left. unfold Suggest.elapse. cbn.
    destruct (Suggest.pending s) as [[v t] |]; [| reflexivity].
    now destruct (t + debounce_wait <=? Suggest.now s + ms)%nat.
  - left. now destruct (Suggest.in_flight id s).
  - left. now destruct (Suggest.in_flight id s).
Qed.

(** Keys the overlay leaves alone.  While it is closed, a key pressed with
    another element focused, or with Meta, Ctrl or Alt held, or that is not
    one word character, changes nothing; while it is open, a key other than
    the two arrows, Escape and Enter changes nothing. *)
Theorem ignored_keys_change_nothing
        (s : Suggest.State) (event : KeyboardEvent) (active : ActiveElement) :
  (Suggest.isOpen s = false
   /\ (nothing_focused active = false
       \/ metaKey event = true \/ ctrlKey event = true \/ altKey event = true
       \/ is_word_key (key event) = false))
  \/ (Suggest.isOpen s = true /\ is_overlay_key (key event) = false) ->
  Suggest.step s (Suggest.KeyDown event active) = s.
Proof.
  intros H.
  assert (Hh : Suggest.handle (Suggest.KeyDown event active) s = s).
  { cbn [Suggest.handle]. unfold Suggest.handleKey.
    destruct H as [[Hclosed Hwhy] | [Hopen Hkey]].
    - rewrite Hclosed.
      destruct (nothing_focused active); [| reflexivity].
      assert (Hno : opens_by_typing event = false).
      { unfold opens_by_typing.
        destruct Hwhy as [Hf | [Hm | [Hc | [Ha | Hw]]]].
        - discriminate Hf.
        - rewrite Hm. cbn. now rewrite andb_false_r.
        - rewrite Hc. cbn. now rewrite !andb_false_r.
        - rewrite Ha. cbn. now rewrite !andb_false_r.
        - now rewrite Hw. }
      now rewrite Hno.
    - rewrite Hopen. unfold is_overlay_key in Hkey.
      apply orb_false_iff in Hkey. destruct Hkey as [Hkey Henter].
      apply orb_false_iff in Hkey. destruct Hkey as [Hkey Hescape].
      apply orb_false_iff in Hkey. destruct Hkey as [Hup Hdown].
      now rewrite Hup, Hdown, Hescape, Henter. }
  unfold Suggest.step. rewrite Hh. now apply effects_idle.
Qed.

(** [ignored_keys_change_nothing] at Ctrl+F on the closed overlay and at a
    letter typed into the open one. *)
Lemma ignored_keys_change_nothing_witness :
  Suggest.step (Suggest.initial false "")
               (Suggest.KeyDown (mkKey "f" false true false) Body)
  = Suggest.initial false ""
  /\ Suggest.step Sample.typing (Suggest.press "b") = Sample.typing.
Proof.
  split.
  - apply ignored_keys_change_nothing. left. split; [reflexivity |].
    right. right. now left.
  - apply ignored_keys_change_nothing. right. now split.
Defined.

(** ** Enter, Escape and the cursors *)

(** Enter in the open overlay: the handler closes the overlay and reads the
    target of the selected entry, and the effect on [isOpen] then resets the
    cursors. *)
Lemma enter_step
      (s : Suggest.State) (event : KeyboardEvent) (active : ActiveElement) :
  Suggest.isOpen s = true ->
  key event = "Enter" ->
  Suggest.step s (Suggest.KeyDown event active)
  = Suggest.setSuggestedResult 0
      (Suggest.setResult 0
         (Suggest.go_to
            (if Suggest.isSuggesting s
             then Suggest.selectedSuggestedResult s
             else Suggest.selectedResult s)
            (Suggest.setOpen false s))).
Proof.
  intros Hopen Hkey.
  assert (Hh : Suggest.handle (Suggest.KeyDown event active) s
               = Suggest.go_to
                   (if Suggest.isSuggesting s
                    then Suggest.selectedSuggestedResult s
                    else Suggest.selectedResult s)
                   (Suggest.setOpen false s)).
  { cbn [Suggest.handle]. unfold Suggest.handleKey. rewrite Hopen, Hkey.
    cbn. now destruct (Suggest.isSuggesting s). }
  unfold Suggest.step. rewrite Hh.
  set (selected := if Suggest.isSuggesting s
                   then Suggest.selectedSuggestedResult s
                   else Suggest.selectedResult s).
  unfold Suggest.effects.
  assert (Hclosed : Suggest.isOpen (Suggest.go_to selected (Suggest.setOpen false s))
                    = false)
    by (unfold Suggest.go_to; now destruct selected).
  assert (Hsame : Suggest.isSuggesting
                    (Suggest.go_to selected (Suggest.setOpen false s))
                  = Suggest.isSuggesting s)
    by (unfold Suggest.go_to; now destruct selected).
  rewrite Hopen, Hclosed, Hsame. cbn [Bool.eqb].
  now rewrite Bool.eqb_reflx.
Qed.

Lemma item_None_iff {A : Type} (items : list A) (index : Z) :
  Cursor.item items index = None
  <-> ~ (0 <= index < Cursor.size items)%Z.
Proof.
  unfold Cursor.item, Cursor.size.
  destruct (Z.ltb_spec index 0) as [Hneg | Hpos].
  - split; [lia | reflexivity].
  - rewrite nth_error_None. lia.
Qed.

(** Enter while results are shown.  The overlay closes and the suggestions
    cursor goes back to 0 either way; the results cursor goes back to 0 when
    the flattened list has an entry, and stays where it is when the list is
    empty (every hit of the response has the page [__proto__]).  When the
    results cursor is inside the list, the page is left for the target of the
    result under it and nothing is thrown; when it is past the end, nothing
    is selected, the page is not left, and reading the target throws. *)
Theorem enter_while_showing
        (s : Suggest.State) (event : KeyboardEvent) (active : ActiveElement) :
  Suggest.isOpen s = true ->
  Suggest.isSuggesting s = false ->
  key event = "Enter" ->
  let s' := Suggest.step s (Suggest.KeyDown event active) in
  Suggest.isOpen s' = false
  /\ (Suggest.indexedResults s <> [] -> Suggest.resultIndex s' = 0%Z)
  /\ (Suggest.indexedResults s = [] ->
      Suggest.resultIndex s' = Suggest.resultIndex s)
  /\ Suggest.suggestedIndex s' = 0%Z
  /\ Suggest.results s' = Suggest.results s
  /\ (Suggest.selectedResult s = None
      <-> ~ (0 <= Suggest.resultIndex s
             < Cursor.size (Suggest.indexedResults s))%Z)
  /\ match Suggest.selectedResult s with
     | Some r =>
         Suggest.location s' = Suggest.location s ++ [href r]
         /\ Suggest.uncaught s' = Suggest.uncaught s
     | None =>
         Suggest.location s' = Suggest.location s
         /\ Suggest.uncaught s' = Suggest.uncaught s ++ ["TypeError"]
     end.
Proof.
  intros Hopen Hsug Hkey s'. subst s'.
  rewrite (enter_step s event active Hopen Hkey), Hsug.
  assert (Hlist : Suggest.indexedResults
                    (Suggest.go_to (Suggest.selectedResult s)
                                   (Suggest.setOpen false s))
                  = Suggest.indexedResults s)
    by (unfold Suggest.go_to; now destruct (Suggest.selectedResult s)).
  assert (Hindex : Suggest.resultIndex
                     (Suggest.go_to (Suggest.selectedResult s)
                                    (Suggest.setOpen false s))
                   = Suggest.resultIndex s)
    by (unfold Suggest.go_to; now destruct (Suggest.selectedResult s)).
  split; [unfold Suggest.go_to; now destruct (Suggest.selectedResult s) |].
  split.
  { intros Hne. apply nonempty_size_positive in Hne.
    cbn [Suggest.setSuggestedResult Suggest.with_suggestedIndex
           Suggest.resultIndex Suggest.setResult Suggest.with_resultIndex].
    rewrite Hlist. unfold Cursor.set, Cursor.clamp.
    destruct (Z.eqb_spec (Cursor.size (Suggest.indexedResults s)) 0); lia. }
  split.
  { intros Hnil.
    cbn [Suggest.setSuggestedResult Suggest.with_suggestedIndex
           Suggest.resultIndex Suggest.setResult Suggest.with_resultIndex].
    rewrite Hlist, Hnil, Hindex. reflexivity. }
  split.
  { cbn [Suggest.setSuggestedResult Suggest.with_suggestedIndex
           Suggest.suggestedIndex].
    assert (Hsuggested : Suggest.suggestedResults
                      (Suggest.setResult 0
                         (Suggest.go_to (Suggest.selectedResult s)
                                        (Suggest.setOpen false s)))
                    = Suggest.suggestedResults s)
      by (unfold Suggest.go_to; now destruct (Suggest.selectedResult s)).
    rewrite Hsuggested, suggestedResults_size. reflexivity. }
  split; [unfold Suggest.go_to; now destruct (Suggest.selectedResult s) |].
  split; [apply item_None_iff |].
  unfold Suggest.go_to.
  destruct (Suggest.selectedResult s); now split.
Qed.

(** [enter_while_showing] at the sample session whose cursor is past the
    end, and at the one whose cursor is on the last result. *)
Lemma enter_while_showing_witness :
  Suggest.uncaught (Suggest.step Sample.narrowed (Suggest.press "Enter"))
  = ["TypeError"]
  /\ Suggest.location (Suggest.step Sample.at_last_result (Suggest.press "Enter"))
     = ["/api/scroll/"].
Proof.
  split.
  - destruct (enter_while_showing Sample.narrowed
                (mkKey "Enter" false false false) Body eq_refl eq_refl eq_refl)
      as [_ [_ [_ [_ [_ [_ H]]]]]].
    change (Suggest.selectedResult Sample.narrowed) with (@None SearchResult) in H.
    destruct H as [_ H]. unfold Suggest.press. rewrite H. reflexivity.
  - destruct (enter_while_showing Sample.at_last_result
                (mkKey "Enter" false false false) Body eq_refl eq_refl eq_refl)
      as [_ [_ [_ [_ [_ [_ H]]]]]].
    destruct (Suggest.selectedResult Sample.at_last_result) as [r |] eqn:E;
      [| vm_compute in E; discriminate E].
    destruct H as [H _]. unfold Suggest.press. rewrite H.
    vm_compute in E. injection E as <-. reflexivity.
Defined.

(** Closing the overlay does not cancel the pending search: the request
    for the text typed before Escape or the click outside is still sent
    when the wait has run out. *)
Theorem close_keeps_pending_search
        (s : Suggest.State) (e : Suggest.Event) (v : string) (t ms : nat) :
  Suggest.isOpen s = true ->
  closes e ->
  Suggest.pending s = Some (v, t) ->
  (t + debounce_wait <= Suggest.now s + ms)%nat ->
  Suggest.requests (Suggest.run s [e; Suggest.Elapse ms])
  = Suggest.requests s ++ [mkRequest v 10 (Suggest.search_filters s)]
  /\ Suggest.isOpen (Suggest.run s [e; Suggest.Elapse ms]) = false.
Proof.
  intros Hopen Hclose Hp Hdue.
  unfold Suggest.run. cbn [fold_left].
  rewrite (close_step s e Hopen Hclose), step_elapse.
  unfold Suggest.elapse. cbn. rewrite Hp.
  destruct (Nat.leb_spec (t + debounce_wait) (Suggest.now s + ms)); [| lia].
  now split.
Qed.

(** [close_keeps_pending_search] at the sample session in which a query is
    being typed. *)
Lemma close_keeps_pending_search_witness :
  map query
      (Suggest.requests
         (Suggest.run Sample.typing [Suggest.press "Escape"; Suggest.Elapse 200]))
  = ["a"].
Proof.
  destruct (close_keeps_pending_search
              Sample.typing (Suggest.press "Escape") "a" 0 200) as [H _].
  - reflexivity.
  - left. exists (mkKey "Escape" false false false), Body. now split.
  - reflexivity.
  - unfold debounce_wait. cbn. lia.
  - rewrite H. reflexivity.
Defined.

(** Whatever happened before, a suggestion is selected: the suggestions
    cursor never leaves the suggestion list. *)
Theorem suggestion_is_always_selected (s : Suggest.State) :
  reachable s ->
  exists r,
    Suggest.selectedSuggestedResult s = Some r
    /\ In r (Suggest.suggestedResults s).
Proof.
  intros Hreach.
  destruct (in_range_selected s (reachable_suggested_in_range s Hreach))
    as [r Hr].
  exists r. split; [exact Hr |].
  now apply item_In with (index := Suggest.suggestedIndex s).
Qed.

(** [suggestion_is_always_selected] after ten ArrowDown over the four
    suggestions. *)
Lemma suggestion_is_always_selected_witness :
  exists r,
    Suggest.selectedSuggestedResult
      (Suggest.run (Suggest.initial true "")
                   (Suggest.Focus :: repeat (Suggest.press "ArrowDown") 10))
    = Some r
    /\ title r = "useSpring".
Proof.
  destruct (suggestion_is_always_selected
              (Suggest.run (Suggest.initial true "")
                           (Suggest.Focus :: repeat (Suggest.press "ArrowDown") 10)))
    as [r [Hr _]].
  - exists true, "".
    now exists (Suggest.Focus :: repeat (Suggest.press "ArrowDown") 10).
  - exists r. split; [exact Hr |].
    vm_compute in Hr. injection Hr as <-. reflexivity.
Defined.

(** [leaving_suggestions_resets_their_cursor] at a session in which the
    third suggestion is under the cursor when the results arrive. *)
Lemma leaving_suggestions_resets_their_cursor_witness :
  let s := Suggest.run (Suggest.initial false "")
             [Suggest.Focus; Suggest.press "ArrowDown"; Suggest.press "ArrowDown";
              Suggest.Change (FormEvent "d"); Suggest.Elapse 200] in
  Suggest.suggestedIndex s = 2%Z
  /\ Suggest.suggestedIndex (Suggest.step s (Suggest.Resolve 0 Sample.three_hits))
     = 0%Z.
Proof.
  cbv zeta. split; [reflexivity |].
  apply leaving_suggestions_resets_their_cursor.
  - reflexivity.
  - reflexivity.
  - discriminate.
Defined.

(** ** [Search.tsx] *)

(** In [Search.tsx] the change handler hands every text to the debounced
    search, the empty one included: clearing the input sends a request for
    the empty query once the wait has run out, and the results on display
    stay until it is answered. *)
Theorem Plain_empty_query_is_sent (p : Plain.State) (quiet : nat) :
  (debounce_wait <= quiet)%nat ->
  let p' := Plain.run p [Plain.Change (FormEvent ""); Plain.Elapse quiet] in
  Plain.requests p'
  = Plain.requests p
      ++ [mkRequest "" 10
            [("library:" ++ (if Plain.motionSite p then "motion" else "library"))%string]]
  /\ Plain.value p' = ""
  /\ Plain.results p' = Plain.results p.
Proof.
  intros Hq p'. subst p'.
  unfold Plain.run. cbn [fold_left Plain.step].
  unfold Plain.handleChange, Plain.elapse. cbn.
  destruct (Nat.leb_spec (Plain.now p + debounce_wait) (Plain.now p + quiet));
    [| lia].
  now repeat split.
Qed.

(** [Plain_empty_query_is_sent] at the freshly mounted component. *)
Lemma Plain_empty_query_is_sent_witness :
  map query
      (Plain.requests
         (Plain.run (Plain.initial false)
                    [Plain.Change (FormEvent ""); Plain.Elapse 200]))
  = [""].
Proof.
  destruct (Plain_empty_query_is_sent (Plain.initial false) 200) as [H _].
  - unfold debounce_wait. lia.
  - rewrite H. reflexivity.
Defined.

(** In [Search.tsx] closing the overlay, by Escape or by a click outside,
    and focusing the input again gives back the state the overlay was
    closed in: text, results, cursor and timer are all kept. *)
Theorem Plain_close_then_focus (p : Plain.State) (e : Plain.Event) :
  Plain.open p = true ->
  plain_closes e ->
  Plain.open (Plain.step p e) = false
  /\ Plain.step (Plain.step p e) Plain.Focus = p.
Proof.
  intros Hopen Hclose.
  assert (Hstep : Plain.step p e = Plain.setOpen false p).
  { destruct Hclose as [[event [active [-> Hkey]]] | ->]; cbn [Plain.step].
    - unfold Plain.handleKey. now rewrite Hopen, Hkey.
    - reflexivity. }
  rewrite Hstep. split; [reflexivity |].
  destruct p. cbn in *. now subst.
Qed.

(** [Plain_close_then_focus] at the sample session of [Search.tsx]. *)
Lemma Plain_close_then_focus_witness :
  Plain.step (Plain.step Sample.plain_two_in_flight Plain.ClickOutside)
             Plain.Focus
  = Sample.plain_two_in_flight.
Proof.
  apply (Plain_close_then_focus Sample.plain_two_in_flight Plain.ClickOutside).
  - reflexivity.
  - now right.
Defined.

(** [Plain_failed_search_only_logs] at the sample session of
    [Search.tsx]. *)
Lemma Plain_failed_search_only_logs_witness :
  Plain.console
    (Plain.step Sample.plain_two_in_flight (Plain.Reject 1 "NetworkError"))
  = ["NetworkError"].
Proof.
  destruct (Plain_failed_search_only_logs
              Sample.plain_two_in_flight 1 "NetworkError" eq_refl)
    as [_ [H _]].
  rewrite H. reflexivity.
Defined.

(** [Plain_enter_without_results] at the sample session of [Search.tsx],
    which has no results yet. *)
Lemma Plain_enter_without_results_witness :
  Plain.uncaught
    (Plain.step Sample.plain_two_in_flight
                (Plain.KeyDown (mkKey "Enter" false false false) Body))
  = ["TypeError"].
Proof.
  destruct (Plain_enter_without_results
              Sample.plain_two_in_flight (mkKey "Enter" false false false) Body
              eq_refl eq_refl eq_refl)
    as [_ H].
  rewrite H. reflexivity.
Defined.

(** ** The static prototype *)

Lemma includes_empty (s : string) : Mock.includes s "" = true.
Proof.
  unfold Mock.includes. destruct s as [| c s]; [reflexivity |].
  cbn [index]. now destruct (prefix "" (String c s)) eqn:E.
Qed.

(** In the prototype an empty query lists the whole table, and the key
    handler does not look at whether the overlay is open: Enter leaves the
    page for the target of the selected entry, and closes the overlay, from
    the closed state as well. *)
Theorem Mock_enter_ignores_open_state (s : Mock.State) (event : KeyboardEvent) :
  (Mock.value s = "" -> Mock.results s = Mock.genericResults)
  /\ (key event = "Enter" ->
      forall r, Mock.selectedResult s = Some r ->
                Mock.location (Mock.handleKey event s)
                = Mock.location s ++ [Mock.href r]
                /\ Mock.open (Mock.handleKey event s) = false
                /\ In r Mock.genericResults).
Proof.
  split.
  - intros Hv. unfold Mock.results. rewrite Hv.
    induction Mock.genericResults as [| r l IH]; cbn [filter]; [reflexivity |].
    now rewrite includes_empty, IH.
  - intros Hkey r Hsel. unfold Mock.handleKey. rewrite Hkey, Hsel. cbn.
    repeat split.
    apply item_In in Hsel. unfold Mock.results in Hsel.
    now apply filter_In in Hsel.
Qed.

(** [Mock_enter_ignores_open_state] at the freshly loaded page: Enter on
    the closed overlay leaves for the first entry of the table. *)
Lemma Mock_enter_ignores_open_state_witness :
  Mock.open Mock.initial = false
  /\ Mock.location
       (Mock.handleKey (mkKey "Enter" false false false) Mock.initial)
     = ["/api/animation/"].
Proof.
  split; [reflexivity |].
  destruct (Mock_enter_ignores_open_state
              Mock.initial (mkKey "Enter" false false false)) as [_ H].
  destruct (Mock.selectedResult Mock.initial) as [r |] eqn:E;
    [| vm_compute in E; discriminate E].
  destruct (H eq_refl r eq_refl) as [Hloc _].
  rewrite Hloc. vm_compute in E. injection E as <-. reflexivity.
Defined.

(** ** A response that arrives *)

(** The hits of an answered request are stored whatever the input holds by
    then, the empty text included.  The flattened list holds the hits whose
    page is not [__proto__], each once, and so all of them when no hit has
    that page; the mode is Showing when there is a hit and Empty when there
    is none, and neither the text nor the request log changes. *)
Theorem response_is_shown
        (s : Suggest.State) (id : nat) (hits : list SearchResult) :
  Suggest.in_flight id s = true ->
  let s' := Suggest.step s (Suggest.Resolve id hits) in
  Suggest.results s' = Some hits
  /\ Permutation (Suggest.indexedResults s') (filter kept hits)
  /\ (Forall (fun r => page r <> proto_name) hits ->
      Permutation (Suggest.indexedResults s') hits)
  /\ Suggest.mode s' = match hits with
                       | [] => Suggest.Empty
                       | _ :: _ => Suggest.Showing
                       end
  /\ Suggest.value s' = Suggest.value s
  /\ Suggest.requests s' = Suggest.requests s
  /\ Suggest.in_flight id s' = false.
Proof.
  intros Hin s'.
  assert (Hh : Suggest.handle (Suggest.Resolve id hits) s
               = Suggest.on_hits hits (Suggest.settle id s)).
  { cbn [Suggest.handle]. now rewrite Hin. }
  assert (Hres : Suggest.results s' = Some hits).
  { subst s'. unfold Suggest.step. now rewrite effects_results, Hh. }
  split; [exact Hres |].
  split.
  { unfold Suggest.indexedResults, Suggest.categorisedResults.
    rewrite Hres. apply flatten_perm. }
  split.
  { intros Hall. unfold Suggest.indexedResults, Suggest.categorisedResults.
    rewrite Hres. now apply flatten_perm_all_kept. }
  split.
  { unfold Suggest.mode, Suggest.isEmpty, Suggest.isSuggesting.
    rewrite Hres. now destruct hits. }
  split; [subst s'; unfold Suggest.step; now rewrite effects_value, Hh |].
  split; [subst s'; unfold Suggest.step; now rewrite effects_requests, Hh |].
  subst s'. unfold Suggest.step. rewrite effects_in_flight, Hh.
  unfold Suggest.in_flight. cbn. rewrite Nat.eqb_refl. cbn.
  apply andb_false_r.
Qed.

(** [response_is_shown] at a session in which the input is cleared while
    the request is in flight. *)
Lemma response_is_shown_witness :
  let s := Suggest.run Sample.waiting [Suggest.Change (FormEvent "")] in
  let s' := Suggest.step s (Suggest.Resolve 0 Sample.three_hits) in
  Suggest.value s' = ""
  /\ Suggest.mode s = Suggest.Suggesting
  /\ Suggest.mode s' = Suggest.Showing.
Proof.
  cbv zeta.
  destruct (response_is_shown
              (Suggest.run Sample.waiting [Suggest.Change (FormEvent "")])
              0 Sample.three_hits eq_refl)
    as [_ [_ [_ [Hmode [Hvalue _]]]]].
  split; [rewrite Hvalue; reflexivity |].
  split; [reflexivity | exact Hmode].
Defined.
